(** * Audio/Video Summary App: the note store and the session workflow

    A shallow embedding of [app.py]: a Streamlit script that converts an
    uploaded audio or video file to mp3, transcribes and summarises it
    through the OpenAI API, stores summaries as points of a Qdrant
    collection and lists or searches them.

    The script mutates [st.session_state] and talks to two remote
    services, so the embedding is a state-and-exception monad over a
    [World]: the session dictionary, the Qdrant server, the log of the
    remote requests issued so far, the elements put on the page and
    the lines printed.  A Python exception is a [Raise] result that
    keeps the world as it was when the exception was raised.  The
    cached OpenAI and Qdrant clients ([get_openai_client],
    [get_qdrant_client]) only hold credentials and are not modelled. *)

From stdpp Require Import gmap strings list sorting.
From Stdlib Require Import QArith.

Local Open Scope string_scope.
Local Open Scope list_scope.
Local Open Scope nat_scope.

(** ** Constants (app.py, lines 27-31) *)

Definition TRANSCRIPTION_MODEL : string := "whisper-1".
Definition SUMMARY_MODEL : string := "gpt-4o".
Definition EMBEDDING_MODEL : string := "text-embedding-3-large".
Definition EMBEDDING_DIM : nat := 3072.
Definition COLLECTION_NAME : string := "SUMMARIES".

(** ** Data *)

Definition bytes := list Byte.byte.

(** An embedding is a list of floats; the floats are only passed around,
    never computed with, and are taken as rationals. *)
Definition vector := list Q.

(** What [st.file_uploader] hands to the script. *)
Record UploadedFile := {
  file_name : string;
  file_data : bytes
}.

(** A value kept under ['audio_bytes'] or ['video_bytes']: the empty
    [str] the script initialises the key with, or the [bytes] of a
    converted upload. *)
Inductive Blob :=
| EmptyStr
| Mp3 (b : bytes).

(** [st.session_state], restricted to the keys the script uses. *)
Record Session := {
  audio_bytes : Blob;
  video_bytes : Blob;
  audio_bytes_md5 : string;
  video_bytes_md5 : string;
  audio_summary : string;
  video_summary : string;
  api_key : string
}.

(** The session after lines 173-189 on a fresh session. *)
Definition initial_session : Session :=
  {| audio_bytes := EmptyStr; video_bytes := EmptyStr;
     audio_bytes_md5 := ""; video_bytes_md5 := "";
     audio_summary := ""; video_summary := "";
     api_key := "" |}.

(** *** Qdrant models *)

Inductive Distance := COSINE | EUCLID | DOT | MANHATTAN.

Record VectorParams := {
  size_ : nat;
  distance : Distance
}.

Record PointStruct := {
  point_id : nat;
  point_vector : vector;
  point_payload : gmap string string
}.

(** A stored point, keyed by its id in the collection. *)
Record StoredPoint := {
  stored_vector : vector;
  stored_payload : gmap string string
}.

Record Collection := {
  vectors_config : VectorParams;
  points : gmap nat StoredPoint
}.

(** An entry of a [scroll] page. *)
Record Record_ := {
  record_id : nat;
  record_payload : gmap string string
}.

(** An entry of a [search] answer. *)
Record ScoredPoint := {
  scored_id : nat;
  scored_score : Q;
  scored_payload : gmap string string
}.

(** The dictionaries [list_notes_from_qdrant] returns. *)
Record NoteView := {
  text : string;
  score : option Q
}.

(** *** Remote requests, as the script issues them *)

Inductive Request :=
| TranscriptionsCreate (model : string) (name : string) (file : bytes)
                       (response_format : string)
| ChatCompletionsCreate (model : string) (temperature : Z) (role content : string)
| EmbeddingsCreate (model : string) (input : list string) (dimensions : nat)
| CollectionExists (collection_name : string)
| CreateCollection (collection_name : string) (config : VectorParams)
| Count (collection_name : string) (exact : bool)
| Upsert (collection_name : string) (pts : list PointStruct)
| Scroll (collection_name : string) (limit : nat)
| Search (collection_name : string) (query_vector : vector) (limit : nat).

(** *** Page elements *)

Inductive Element :=
| StTitle (body : string)
| StHeader (body : string)
| StAudio (data : Blob)
| StVideo (f : UploadedFile)
| StTextArea (label value : string)
| StSuccess (body : string)
| StWrite (body : string)
| StMetric (label : string) (value : Q)
| StInfo (body : string).

(** *** Exceptions *)

Inductive Exception :=
| UnsupportedMediaError
| TranscriptionError
| SummarizationError
| EmbeddingError
| StoreError
| KeyError (key : string)
| TypeError.

Inductive Result (A : Type) :=
| Ok (a : A)
| Raise (e : Exception).
Arguments Ok {A} a.
Arguments Raise {A} e.

(** ** The world and the monad *)

Record World := {
  session_state : Session;
  qdrant : gmap string Collection;
  requests : list Request;
  page : list Element;
  stdout : list string
}.

Definition App (A : Type) : Type := World → Result A * World.

Definition ret {A} (a : A) : App A := λ w, (Ok a, w).

Definition bind {A B} (m : App A) (k : A → App B) : App B :=
  λ w, match m w with
       | (Ok a, w') => k a w'
       | (Raise e, w') => (Raise e, w')
       end.

Definition raise {A} (e : Exception) : App A := λ w, (Raise e, w).

#[export] Instance App_ret : MRet App := @ret.
#[export] Instance App_bind : MBind App := λ A B k m, bind m k.

Definition get_session : App Session := λ w, (Ok (session_state w), w).

Definition modify_session (f : Session → Session) : App unit :=
  λ w, (Ok tt, {| session_state := f (session_state w); qdrant := qdrant w;
                  requests := requests w; page := page w; stdout := stdout w |}).

Definition get_qdrant : App (gmap string Collection) := λ w, (Ok (qdrant w), w).

Definition put_qdrant (q : gmap string Collection) : App unit :=
  λ w, (Ok tt, {| session_state := session_state w; qdrant := q;
                  requests := requests w; page := page w; stdout := stdout w |}).

Definition get_requests : App (list Request) := λ w, (Ok (requests w), w).

(** Issue a remote request: it is appended to the log. *)
Definition send (r : Request) : App unit :=
  λ w, (Ok tt, {| session_state := session_state w; qdrant := qdrant w;
                  requests := requests w ++ [r]; page := page w;
                  stdout := stdout w |}).

(** Put an element on the page. *)
Definition render (e : Element) : App unit :=
  λ w, (Ok tt, {| session_state := session_state w; qdrant := qdrant w;
                  requests := requests w; page := page w ++ [e];
                  stdout := stdout w |}).

Definition print (line : string) : App unit :=
  λ w, (Ok tt, {| session_state := session_state w; qdrant := qdrant w;
                  requests := requests w; page := page w;
                  stdout := stdout w ++ [line] |}).

Definition when (b : bool) (m : App unit) : App unit :=
  if b then m else ret tt.

(** Session setters, one per key the script assigns. *)
Definition set_audio_bytes (b : Blob) (s : Session) : Session :=
  {| audio_bytes := b; video_bytes := video_bytes s;
     audio_bytes_md5 := audio_bytes_md5 s; video_bytes_md5 := video_bytes_md5 s;
     audio_summary := audio_summary s; video_summary := video_summary s;
     api_key := api_key s |}.

Definition set_video_bytes (b : Blob) (s : Session) : Session :=
  {| audio_bytes := audio_bytes s; video_bytes := b;
     audio_bytes_md5 := audio_bytes_md5 s; video_bytes_md5 := video_bytes_md5 s;
     audio_summary := audio_summary s; video_summary := video_summary s;
     api_key := api_key s |}.

Definition set_audio_bytes_md5 (h : string) (s : Session) : Session :=
  {| audio_bytes := audio_bytes s; video_bytes := video_bytes s;
     audio_bytes_md5 := h; video_bytes_md5 := video_bytes_md5 s;
     audio_summary := audio_summary s; video_summary := video_summary s;
     api_key := api_key s |}.

Definition set_video_bytes_md5 (h : string) (s : Session) : Session :=
  {| audio_bytes := audio_bytes s; video_bytes := video_bytes s;
     audio_bytes_md5 := audio_bytes_md5 s; video_bytes_md5 := h;
     audio_summary := audio_summary s; video_summary := video_summary s;
     api_key := api_key s |}.

Definition set_audio_summary (t : string) (s : Session) : Session :=
  {| audio_bytes := audio_bytes s; video_bytes := video_bytes s;
     audio_bytes_md5 := audio_bytes_md5 s; video_bytes_md5 := video_bytes_md5 s;
     audio_summary := t; video_summary := video_summary s;
     api_key := api_key s |}.

Definition set_video_summary (t : string) (s : Session) : Session :=
  {| audio_bytes := audio_bytes s; video_bytes := video_bytes s;
     audio_bytes_md5 := audio_bytes_md5 s; video_bytes_md5 := video_bytes_md5 s;
     audio_summary := audio_summary s; video_summary := t;
     api_key := api_key s |}.

Definition set_api_key (k : string) (s : Session) : Session :=
  {| audio_bytes := audio_bytes s; video_bytes := video_bytes s;
     audio_bytes_md5 := audio_bytes_md5 s; video_bytes_md5 := video_bytes_md5 s;
     audio_summary := audio_summary s; video_summary := video_summary s;
     api_key := k |}.

(** ** The services outside the program

    What pydub, hashlib, the OpenAI API and the Qdrant server answer is
    not the program's: it is a parameter of everything below. A remote
    service sees the log of the requests issued before the current one,
    so it may answer the same request differently at different times;
    [None] (or [false]) is a failed call. *)

Record Services := {
  (** [AudioSegment.from_file] followed by [export(format='mp3')] *)
  pydub_mp3 : UploadedFile → option bytes;
  (** [md5(b).hexdigest()] *)
  md5_hexdigest : bytes → string;
  (** [audio.transcriptions.create(...).text] *)
  openai_transcription : list Request → bytes → option string;
  (** [chat.completions.create(...).choices[0].message.content] *)
  openai_chat : list Request → string → option string;
  (** [embeddings.create(...).data[0].embedding] for an input and a
      requested number of dimensions *)
  openai_embedding : list Request → string → nat → option vector;
  (** whether the Qdrant server answers the next request *)
  qdrant_reachable : list Request → bool;
  (** the estimate a non-exact count gives for a collection of n points *)
  approximate_count : nat → nat;
  (** the similarity of two vectors under a metric, higher is closer *)
  similarity : Distance → vector → vector → Q
}.

(** *** The Qdrant server, on its collections *)

Definition empty_collection (cfg : VectorParams) : Collection :=
  {| vectors_config := cfg; points := ∅ |}.

(** A point is stored under its id, replacing a point stored there; a
    vector of the wrong length is refused. *)
Definition store_point (c : Collection) (p : PointStruct) : option Collection :=
  if decide (length (point_vector p) = size_ (vectors_config c)) then
    Some {| vectors_config := vectors_config c;
            points := <[point_id p :=
                         {| stored_vector := point_vector p;
                            stored_payload := point_payload p |}]> (points c) |}
  else None.

Fixpoint store_points (c : Collection) (ps : list PointStruct) : option Collection :=
  match ps with
  | [] => Some c
  | p :: ps' =>
      match store_point c p with
      | Some c' => store_points c' ps'
      | None => None
      end
  end.

Definition to_record (kv : nat * StoredPoint) : Record_ :=
  {| record_id := kv.1; record_payload := stored_payload kv.2 |}.

(** A page of at most [limit] points, in the order the store keeps them. *)
Definition scroll_page (c : Collection) (limit : nat) : list Record_ :=
  take limit (to_record <$> map_to_list (points c)).

Definition by_score_desc (a b : ScoredPoint) : Prop :=
  (scored_score b <= scored_score a)%Q.

#[export] Instance by_score_desc_dec a b : Decision (by_score_desc a b) :=
  match Qlt_le_dec (scored_score a) (scored_score b) with
  | left Hlt => right (Qlt_not_le _ _ Hlt)
  | right Hle => left Hle
  end.

Definition to_scored (sim : vector → vector → Q) (qv : vector)
    (kv : nat * StoredPoint) : ScoredPoint :=
  {| scored_id := kv.1;
     scored_score := sim qv (stored_vector kv.2);
     scored_payload := stored_payload kv.2 |}.

(** The [limit] points most similar to [qv] under the metric of the
    collection, most similar first. *)
Definition nearest (sim : Distance → vector → vector → Q) (c : Collection)
    (qv : vector) (limit : nat) : list ScoredPoint :=
  take limit
    (merge_sort by_score_desc
       (to_scored (sim (distance (vectors_config c))) qv
          <$> map_to_list (points c))).

Definition falsy (query : option string) : bool :=
  match query with
  | None => true
  | Some q => bool_decide (q = "")
  end.

Fixpoint for_each {A B} (f : A → App B) (l : list A) : App (list B) :=
  match l with
  | [] => mret []
  | x :: l' => y ← f x; ys ← for_each f l'; mret (y :: ys)
  end.

(** [d[key]] on a payload dictionary. *)
Definition getitem (d : gmap string string) (key : string) : App string :=
  match d !! key with
  | Some v => mret v
  | None => raise (KeyError key)
  end.

Definition prompt : string :=
"Streść następujący tekst w sposób zwięzły, 
    zachowując wszystkie kluczowe informacje, fakty, sens oryginału i poprawność językową. 
    Wypowiadaj się w trzeciej osobie. Przetłumacz na język angielski.
    Unikaj ogólników, skup się na konkretach i głównych punktach przekazu: ".

(** [round(x, 2)]: to the nearest hundredth, a tie to the even one. *)
Definition round2 (x : Q) : Q :=
  let y := (x * 100)%Q in
  let n := (Qnum y / Z.pos (Qden y))%Z in
  let twice_rest := (2 * (Qnum y mod Z.pos (Qden y)))%Z in
  let up :=
    match (twice_rest ?= Z.pos (Qden y))%Z with
    | Lt => false
    | Gt => true
    | Eq => Z.odd n
    end in
  ((if up then n + 1 else n)%Z # 100).

(** *** What the user did before a run *)

Inductive MediaKind := Audio | Video.

#[export] Instance MediaKind_eq_dec : EqDecision MediaKind.
Proof. solve_decision. Defined.

(** The widgets of one media tab: the file in the uploader and whether
    this run was started by one of the tab's buttons. *)
Record TabWidgets := {
  uploaded_user_file : option UploadedFile;
  generate_clicked : bool;
  save_clicked : bool
}.

Record Widgets := {
  api_key_input : string;
  audio_widgets : TabWidgets;
  video_widgets : TabWidgets;
  query_input : string;
  search_clicked : bool
}.

Definition stored_bytes (k : MediaKind) (s : Session) : Blob :=
  match k with Audio => audio_bytes s | Video => video_bytes s end.

Definition stored_md5 (k : MediaKind) (s : Session) : string :=
  match k with Audio => audio_bytes_md5 s | Video => video_bytes_md5 s end.

Definition stored_summary (k : MediaKind) (s : Session) : string :=
  match k with Audio => audio_summary s | Video => video_summary s end.

Definition other (k : MediaKind) : MediaKind :=
  match k with Audio => Video | Video => Audio end.

Section Program.

Context (env : Services).

(** *** FILE BYTES (lines 38-42) *)

Definition convert_user_file (uploaded_user_file : UploadedFile) : App bytes :=
  match pydub_mp3 env uploaded_user_file with
  | Some audio_bytes => mret audio_bytes
  | None => raise UnsupportedMediaError
  end.

(** *** OPENAI (lines 54-92) *)

(** [BytesIO(x)] accepts bytes only. *)
Definition BytesIO (x : Blob) : App bytes :=
  match x with
  | Mp3 b => mret b
  | EmptyStr => raise TypeError
  end.

Definition transcribe_audio (b : Blob) : App string :=
  bytes_file ← BytesIO b;
  h ← get_requests;
  send (TranscriptionsCreate TRANSCRIPTION_MODEL "audio.mp3" bytes_file
          "verbose_json");;
  match openai_transcription env h bytes_file with
  | Some response_text => mret response_text
  | None => raise TranscriptionError
  end.

Definition summary (audio_transcription : string) : App string :=
  let content := (prompt ++ ": " ++ audio_transcription)%string in
  h ← get_requests;
  send (ChatCompletionsCreate SUMMARY_MODEL 0 "user" content);;
  match openai_chat env h content with
  | Some message_content => mret message_content
  | None => raise SummarizationError
  end.

Definition get_embedding (audio_summary : string) : App vector :=
  h ← get_requests;
  send (EmbeddingsCreate EMBEDDING_MODEL [audio_summary] EMBEDDING_DIM);;
  match openai_embedding env h audio_summary EMBEDDING_DIM with
  | Some embedding => mret embedding
  | None => raise EmbeddingError
  end.

(** *** QDRANT: the client methods the script calls *)

(** Every method sends its request and fails when the server does not
    answer. *)
Definition qdrant_request (r : Request) : App unit :=
  h ← get_requests;
  send r;;
  if qdrant_reachable env h then mret tt else raise StoreError.

Definition client_collection_exists (collection_name : string) : App bool :=
  qdrant_request (CollectionExists collection_name);;
  q ← get_qdrant;
  mret (bool_decide (is_Some (q !! collection_name))).

Definition client_create_collection (collection_name : string)
    (cfg : VectorParams) : App unit :=
  qdrant_request (CreateCollection collection_name cfg);;
  q ← get_qdrant;
  match q !! collection_name with
  | Some _ => raise StoreError
  | None => put_qdrant (<[collection_name := empty_collection cfg]> q)
  end.

Definition client_count (collection_name : string) (exact : bool) : App nat :=
  qdrant_request (Count collection_name exact);;
  q ← get_qdrant;
  match q !! collection_name with
  | Some c =>
      mret (if exact then size (points c)
            else approximate_count env (size (points c)))
  | None => raise StoreError
  end.

Definition client_upsert (collection_name : string)
    (pts : list PointStruct) : App unit :=
  qdrant_request (Upsert collection_name pts);;
  q ← get_qdrant;
  match q !! collection_name with
  | Some c =>
      match store_points c pts with
      | Some c' => put_qdrant (<[collection_name := c']> q)
      | None => raise StoreError
      end
  | None => raise StoreError
  end.

Definition client_scroll (collection_name : string) (limit : nat)
    : App (list Record_) :=
  qdrant_request (Scroll collection_name limit);;
  q ← get_qdrant;
  match q !! collection_name with
  | Some c => mret (scroll_page c limit)
  | None => raise StoreError
  end.

Definition client_search (collection_name : string) (query_vector : vector)
    (limit : nat) : App (list ScoredPoint) :=
  qdrant_request (Search collection_name query_vector limit);;
  q ← get_qdrant;
  match q !! collection_name with
  | Some c =>
      if decide (length query_vector = size_ (vectors_config c)) then
        mret (nearest (similarity env) c query_vector limit)
      else raise StoreError
  | None => raise StoreError
  end.

(** *** QDRANT (lines 107-166) *)

Definition check_if_collection_exists : App unit :=
  e ← client_collection_exists COLLECTION_NAME;
  if negb e then
    print "Creating collection";;
    client_create_collection COLLECTION_NAME
      {| size_ := EMBEDDING_DIM; distance := COSINE |}
  else
    print "Collection exists".

Definition add_note_to_qdrant (audio_text_summary : string) : App unit :=
  total_number_of_points ← client_count COLLECTION_NAME true;
  embedding ← get_embedding audio_text_summary;
  client_upsert COLLECTION_NAME
    [ {| point_id := total_number_of_points + 1;
         point_vector := embedding;
         point_payload := {[ "summary" := audio_text_summary ]} |} ].

Definition list_notes_from_qdrant (query : option string) : App (list NoteView) :=
  if falsy query then
    summaries ← client_scroll COLLECTION_NAME 10;
    for_each
      (λ r, t ← getitem (record_payload r) "summary";
            mret {| text := t; score := None |})
      summaries
  else
    query_vector ← get_embedding (default "" query);
    summaries ← client_search COLLECTION_NAME query_vector 10;
    for_each
      (λ p, t ← getitem (scored_payload p) "summary";
            mret {| text := t; score := Some (scored_score p) |})
      summaries.

(** *** MAIN: the audio tab (lines 215-242) *)

(** [md5(x).hexdigest()]: hashing refuses a [str]. *)
Definition md5 (x : Blob) : App string :=
  match x with
  | Mp3 b => mret (md5_hexdigest env b)
  | EmptyStr => raise TypeError
  end.

(** Lines 219-226, run when a file is in the uploader. *)
Definition audio_upload (uploaded_user_audio_file : UploadedFile) : App unit :=
  b ← convert_user_file uploaded_user_audio_file;
  modify_session (set_audio_bytes (Mp3 b));;
  s ← get_session;
  render (StAudio (audio_bytes s));;
  s ← get_session;
  current_md5 ← md5 (audio_bytes s);
  s ← get_session;
  when (bool_decide (current_md5 ≠ audio_bytes_md5 s))
    (modify_session (set_audio_summary "");;
     modify_session (set_audio_bytes_md5 current_md5)).

(** Lines 229-230, the body of the "Generate Audio Summary" button. *)
Definition audio_generate : App unit :=
  s ← get_session;
  audio_to_text ← transcribe_audio (audio_bytes s);
  r ← summary audio_to_text;
  modify_session (set_audio_summary r).

(** Lines 241-242, the body of the "Save Audio Summary" button. *)
Definition audio_save : App unit :=
  s ← get_session;
  add_note_to_qdrant (audio_summary s);;
  render (StSuccess "Audio Summary Has Been Saved").

(** Lines 232-242. *)
Definition audio_expander (save_clicked : bool) : App unit :=
  s ← get_session;
  when (bool_decide (audio_summary s ≠ ""))
    (s ← get_session;
     render (StTextArea "Audio Summary" (audio_summary s));;
     when save_clicked audio_save).

Definition audio_tab (ui : TabWidgets) : App unit :=
  match uploaded_user_file ui with
  | Some f =>
      audio_upload f;;
      when (generate_clicked ui) audio_generate;;
      audio_expander (save_clicked ui)
  | None => mret tt
  end.

(** *** MAIN: the video tab (lines 245-272) *)

(** Lines 249-256. *)
Definition video_upload (uploaded_user_video_file : UploadedFile) : App unit :=
  render (StVideo uploaded_user_video_file);;
  b ← convert_user_file uploaded_user_video_file;
  modify_session (set_video_bytes (Mp3 b));;
  s ← get_session;
  current_md5 ← md5 (video_bytes s);
  s ← get_session;
  when (bool_decide (current_md5 ≠ video_bytes_md5 s))
    (modify_session (set_video_bytes_md5 current_md5);;
     modify_session (set_video_summary "")).

(** Lines 259-260. *)
Definition video_generate : App unit :=
  s ← get_session;
  video_to_text ← transcribe_audio (video_bytes s);
  r ← summary video_to_text;
  modify_session (set_video_summary r).

(** Lines 271-272. *)
Definition video_save : App unit :=
  s ← get_session;
  add_note_to_qdrant (video_summary s);;
  render (StSuccess "Video Summary Has Been Saved").

(** Lines 262-272. *)
Definition video_expander (save_clicked : bool) : App unit :=
  s ← get_session;
  when (bool_decide (video_summary s ≠ ""))
    (s ← get_session;
     render (StTextArea "Video Summary" (video_summary s));;
     when save_clicked video_save).

Definition video_tab (ui : TabWidgets) : App unit :=
  match uploaded_user_file ui with
  | Some f =>
      video_upload f;;
      when (generate_clicked ui) video_generate;;
      video_expander (save_clicked ui)
  | None => mret tt
  end.

(** *** MAIN: the search tab (lines 274-283) *)

Definition show_note (searched : NoteView) : App unit :=
  render (StWrite (text searched));;
  match score searched with
  | Some sc =>
      when (negb (Qeq_bool sc 0)) (render (StMetric "Similarity: " (round2 sc)))
  | None => mret tt
  end.

Definition search_tab (query : string) (search_clicked : bool) : App unit :=
  when search_clicked
    (found ← list_notes_from_qdrant (Some query);
     for_each show_note found;;
     mret tt).

(** *** The script, one run (lines 196-283) *)

Definition main (ui : Widgets) : App unit :=
  render (StTitle ":camera: :speaker: Audio/Video Summary :speaker: :camera:");;
  render (StHeader "Upload your file and create a summary");;
  check_if_collection_exists;;
  audio_tab (audio_widgets ui);;
  video_tab (video_widgets ui);;
  search_tab (query_input ui) (search_clicked ui).

(** Lines 196-201: without a key the run asks for one and ends;
    [st.rerun()] starts the script again, now with the key. *)
Definition app (ui : Widgets) : App unit :=
  s ← get_session;
  if bool_decide (api_key s = "") then
    render (StInfo "Enter your OpenAI API key");;
    modify_session (set_api_key (api_key_input ui));;
    s ← get_session;
    if bool_decide (api_key s = "") then mret tt else main ui
  else main ui.

(** *** The two media kinds, side by side *)

Definition upload (k : MediaKind) : UploadedFile → App unit :=
  match k with Audio => audio_upload | Video => video_upload end.

Definition generate (k : MediaKind) : App unit :=
  match k with Audio => audio_generate | Video => video_generate end.

Definition save (k : MediaKind) : App unit :=
  match k with Audio => audio_save | Video => video_save end.

Definition expander (k : MediaKind) : bool → App unit :=
  match k with Audio => audio_expander | Video => video_expander end.

Definition tab (k : MediaKind) : TabWidgets → App unit :=
  match k with Audio => audio_tab | Video => video_tab end.

(** A sequence of runs of media tabs, each with the widgets of its
    run; a run that raises ends there and the next one starts from the
    world it left. *)
Fixpoint run_tabs (acts : list (MediaKind * TabWidgets)) (w : World) : World :=
  match acts with
  | [] => w
  | (k, ui) :: acts' => run_tabs acts' ((tab k ui w).2)
  end.

End Program.

(** ** Vocabulary of the statements *)

(** The world after a request was logged, and after the store changed. *)
Definition logged (r : Request) (w : World) : World := (send r w).2.

Definition stored (q : gmap string Collection) (w : World) : World :=
  (put_qdrant q w).2.

Definition printed (line : string) (w : World) : World := (print line w).2.

(** Every point of the collection carries a "summary" in its payload,
    as the points this program upserts do. *)
Definition summaries_present (c : Collection) : Prop :=
  ∀ i p, points c !! i = Some p → is_Some (stored_payload p !! "summary").

(** A listed note shows the summary of that stored point, unscored. *)
Definition lists_point (kv : nat * StoredPoint) (n : NoteView) : Prop :=
  stored_payload kv.2 !! "summary" = Some (text n) ∧ score n = None.

(** A found note shows the summary and the score of that search hit. *)
Definition shows_hit (p : ScoredPoint) (n : NoteView) : Prop :=
  scored_payload p !! "summary" = Some (text n) ∧
  score n = Some (scored_score p).

(** Both notes are scored and the first scores at least as high. *)
Definition note_score_desc (a b : NoteView) : Prop :=
  match score a, score b with
  | Some x, Some y => (y <= x)%Q
  | _, _ => False
  end.

Definition note_of_record (r : Record_) : App NoteView :=
  t ← getitem (record_payload r) "summary";
  mret {| text := t; score := None |}.

Definition note_of_hit (p : ScoredPoint) : App NoteView :=
  t ← getitem (scored_payload p) "summary";
  mret {| text := t; score := Some (scored_score p) |}.

(** The outcome of the loop body of each branch, as a value. *)
Definition view_record (r : Record_) : Result NoteView :=
  match record_payload r !! "summary" with
  | Some t => Ok {| text := t; score := None |}
  | None => Raise (KeyError "summary")
  end.

Definition view_hit (p : ScoredPoint) : Result NoteView :=
  match scored_payload p !! "summary" with
  | Some t => Ok {| text := t; score := Some (scored_score p) |}
  | None => Raise (KeyError "summary")
  end.

(** The world a computation leaves behind, returned or raised. *)
Definition after {A} (m : App A) (w : World) : World := (m w).2.

(** [m] leaves [part] of the world as it found it, returning or raising. *)
Definition keeps {A X} (part : World → X) (m : App A) : Prop :=
  ∀ w, part (after m w) = part w.

(** [m] only adds to the request log, and each request it adds
    satisfies [P]. *)
Definition emits {A} (P : Request → Prop) (m : App A) : Prop :=
  ∀ w, ∃ new, requests (after m w) = requests w ++ new ∧ Forall P new.

(** What the session holds for one media kind. *)
Definition kind_state (k : MediaKind) (w : World) : Blob * string * string :=
  (stored_bytes k (session_state w),
   stored_md5 k (session_state w),
   stored_summary k (session_state w)).

(** The number of dimensions a request names, when it names one. *)
Definition request_dimension (r : Request) : option nat :=
  match r with
  | EmbeddingsCreate _ _ d => Some d
  | CreateCollection _ cfg => Some (size_ cfg)
  | _ => None
  end.

(** No point is stored under an id above the number of points: the
    next id, count plus one, is free.  Collections filled by this
    program alone have ids 1..count. *)
Definition ids_within_count (c : Collection) : Prop :=
  ∀ i, is_Some (points c !! i) → i ≤ size (points c).

Definition ids_one_to_count (c : Collection) : Prop :=
  ∀ i, is_Some (points c !! i) ↔ 1 ≤ i ≤ size (points c).

(** The point [add_note_to_qdrant] builds for a summary, and the
    collection with that point stored. *)
Definition summary_point (id : nat) (v : vector) (s : string) : PointStruct :=
  {| point_id := id; point_vector := v; point_payload := {[ "summary" := s ]} |}.

Definition summary_stored (v : vector) (s : string) : StoredPoint :=
  {| stored_vector := v; stored_payload := {[ "summary" := s ]} |}.

Definition with_point (c : Collection) (id : nat) (v : vector) (s : string)
    : Collection :=
  {| vectors_config := vectors_config c;
     points := <[id := summary_stored v s]> (points c) |}.

(** ** Concrete services and worlds

    Services that always answer, services that never do, and small
    worlds to run the program on. *)

Definition first_coordinates (u v : vector) : Q :=
  match u, v with
  | x :: _, y :: _ => (x * y)%Q
  | _, _ => 0%Q
  end.

Definition demo : Services :=
  {| pydub_mp3 := λ f, Some (file_data f);
     md5_hexdigest := String.string_of_list_byte;
     openai_transcription := λ _ _, Some "they met at noon";
     openai_chat := λ _ _, Some "S1";
     openai_embedding := λ _ t d, Some (replicate d (Z.of_nat (String.length t) # 1));
     qdrant_reachable := λ _, true;
     approximate_count := λ n, n;
     similarity := λ _, first_coordinates |}.

Definition offline : Services :=
  {| pydub_mp3 := λ f, Some (file_data f);
     md5_hexdigest := String.string_of_list_byte;
     openai_transcription := λ _ _, None;
     openai_chat := λ _ _, None;
     openai_embedding := λ _ _ _, None;
     qdrant_reachable := λ _, false;
     approximate_count := λ n, n;
     similarity := λ _, first_coordinates |}.

Definition file_A : UploadedFile :=
  {| file_name := "a.mp3"; file_data := [Byte.x41] |}.

Definition file_B : UploadedFile :=
  {| file_name := "b.wav"; file_data := [Byte.x42] |}.

Definition program_config : VectorParams :=
  {| size_ := EMBEDDING_DIM; distance := COSINE |}.

(** A session with a key, nothing uploaded; no collection yet. *)
Definition fresh_world : World :=
  {| session_state := set_api_key "sk-demo" initial_session;
     qdrant := ∅; requests := []; page := []; stdout := [] |}.

(** The collection is there and empty. *)
Definition ready_world : World :=
  stored {[ COLLECTION_NAME := empty_collection program_config ]} fresh_world.

(** File A is uploaded and summarised as "S1"; the collection is empty. *)
Definition summarised_world : World :=
  {| session_state :=
       set_audio_summary "S1"
         (set_audio_bytes_md5 "A"
            (set_audio_bytes (Mp3 [Byte.x41])
               (set_api_key "sk-demo" initial_session)));
     qdrant := {[ COLLECTION_NAME := empty_collection program_config ]};
     requests := []; page := []; stdout := [] |}.

(** One note, "S1", is stored under id 1. *)
Definition one_note : Collection :=
  with_point (empty_collection program_config) 1
    (replicate EMBEDDING_DIM (2 # 1)) "S1".

Definition saved_world : World :=
  stored {[ COLLECTION_NAME := one_note ]} summarised_world.

Definition upload_only (f : UploadedFile) : TabWidgets :=
  {| uploaded_user_file := Some f; generate_clicked := false;
     save_clicked := false |}.

Definition press_generate (f : UploadedFile) : TabWidgets :=
  {| uploaded_user_file := Some f; generate_clicked := true;
     save_clicked := false |}.

Definition press_save (f : UploadedFile) : TabWidgets :=
  {| uploaded_user_file := Some f; generate_clicked := false;
     save_clicked := true |}.

(** *** One run of the script, one user action

    Streamlit reruns the whole script after each interaction, and one
    interaction changes one widget: a file is put in an uploader, or
    one button is pressed.  The files the user did not touch were
    processed by the run before. *)

(** The file in the uploader of tab [k] is the one the session holds
    the bytes and the fingerprint of. *)
Definition settled (env : Services) (k : MediaKind) (ui : TabWidgets)
    (s : Session) : Prop :=
  match uploaded_user_file ui with
  | None => True
  | Some f =>
      ∃ b, pydub_mp3 env f = Some b ∧
           stored_bytes k s = Mp3 b ∧
           stored_md5 k s = md5_hexdigest env b
  end.

Definition idle (ui : TabWidgets) : Prop :=
  generate_clicked ui = false ∧ save_clicked ui = false.

(** Nothing was done in the tab. *)
Definition quiet (env : Services) (k : MediaKind) (ui : TabWidgets)
    (s : Session) : Prop :=
  settled env k ui s ∧ idle ui.

(** One thing was done in the tab: a file was put in (no button can be
    pressed in that run), or one button was pressed under the file
    already there. *)
Definition acted (env : Services) (k : MediaKind) (ui : TabWidgets)
    (s : Session) : Prop :=
  idle ui ∨
  (settled env k ui s ∧ generate_clicked ui && save_clicked ui = false).

Definition one_action (env : Services) (ui : Widgets) (s : Session) : Prop :=
  (acted env Audio (audio_widgets ui) s ∧ quiet env Video (video_widgets ui) s ∧
   search_clicked ui = false) ∨
  (quiet env Audio (audio_widgets ui) s ∧ acted env Video (video_widgets ui) s ∧
   search_clicked ui = false) ∨
  (quiet env Audio (audio_widgets ui) s ∧ quiet env Video (video_widgets ui) s).

Definition widgets_of (k : MediaKind) (ui : Widgets) : TabWidgets :=
  match k with Audio => audio_widgets ui | Video => video_widgets ui end.

(** The store holds no collection under the program's name, or one the
    program made: its configuration, ids 1..count, a summary in every
    point. *)
Record program_collection (c : Collection) : Prop := {
  made_config : vectors_config c = program_config;
  made_ids : ids_one_to_count c;
  made_summaries : summaries_present c
}.

Definition program_store (w : World) : Prop :=
  ∀ c, qdrant w !! COLLECTION_NAME = Some c → program_collection c.

(** [m] maintains the invariant [I], returning or raising. *)
Definition maintains {A} (I : World → Prop) (m : App A) : Prop :=
  ∀ w, I w → I (after m w).

(** The scenario of the specification: upload A, generate, save; then
    upload B. *)
Definition after_generate : World :=
  run_tabs demo
    [(Audio, upload_only file_A); (Audio, press_generate file_A)] ready_world.

Definition after_save : World :=
  run_tabs demo [(Audio, press_save file_A)] after_generate.

Definition after_upload_B : World :=
  run_tabs demo [(Audio, upload_only file_B)] after_save.

(** A collection somebody else filled: one point, under id 2. *)
Definition foreign_collection : Collection :=
  with_point (empty_collection program_config) 2
    (replicate EMBEDDING_DIM (1 # 1)) "old".

Definition foreign_world : World :=
  stored {[ COLLECTION_NAME := foreign_collection ]} summarised_world.

(** The payloads of a collection of the world, by id. *)
Definition payloads (w : World) : list (nat * list (string * string)) :=
  match qdrant w !! COLLECTION_NAME with
  | Some c =>
      (λ kv, (kv.1, map_to_list (stored_payload kv.2))) <$> map_to_list (points c)
  | None => []
  end.

(** ** The rest of the script

    *** SECRETS (lines 15-20): the deployment secrets override [.env] *)

(** [if key in st.secrets: env[key] = st.secrets[key]] *)
Definition take_secret (key : string) (secrets env : gmap string string)
    : gmap string string :=
  match secrets !! key with
  | Some v => <[key := v]> env
  | None => env
  end.

(** [env] after lines 15-20, from what [dotenv_values('.env')] read and
    from [st.secrets]. *)
Definition load_env (dotenv secrets : gmap string string) : gmap string string :=
  take_secret "QDRANT_API" secrets (take_secret "QDRANT_URL" secrets dotenv).

(** [d[key]] outside the monad. *)
Definition lookup_key (d : gmap string string) (key : string) : Result string :=
  match d !! key with
  | Some v => Ok v
  | None => Raise (KeyError key)
  end.

(** *** The cached clients (lines 49-51 and 99-104) *)

Record QdrantClient := {
  client_url : string;
  client_api_key : string
}.

Record OpenAI := {
  openai_api_key : string
}.

(** [QdrantClient(url=env['QDRANT_URL'], api_key=env['QDRANT_API'])]:
    the arguments are read left to right. *)
Definition new_qdrant_client (env : gmap string string) : Result QdrantClient :=
  match lookup_key env "QDRANT_URL" with
  | Ok url =>
      match lookup_key env "QDRANT_API" with
      | Ok key => Ok {| client_url := url; client_api_key := key |}
      | Raise e => Raise e
      end
  | Raise e => Raise e
  end.

(** [@st.cache_resource] on a function without arguments: one cell for
    the whole process, shared by all sessions; the function runs while
    the cell is empty, and what it returns fills the cell; an exception
    leaves it empty. *)
Definition cache_resource {C} (build : Result C) (cache : option C)
    : Result C * option C :=
  match cache with
  | Some c => (Ok c, Some c)
  | None =>
      match build with
      | Ok c => (Ok c, Some c)
      | Raise e => (Raise e, None)
      end
  end.

Definition get_openai_client (s : Session) (cache : option OpenAI)
    : Result OpenAI * option OpenAI :=
  cache_resource (Ok {| openai_api_key := api_key s |}) cache.

Definition get_qdrant_client (env : gmap string string)
    (cache : option QdrantClient) : Result QdrantClient * option QdrantClient :=
  cache_resource (new_qdrant_client env) cache.

(** The clients handed out to a sequence of callers, each calling from
    its own session, starting from a given cell. *)
Fixpoint openai_clients_served (callers : list Session) (cache : option OpenAI)
    : list (Result OpenAI) :=
  match callers with
  | [] => []
  | s :: callers' =>
      let '(client, cache') := get_openai_client s cache in
      client :: openai_clients_served callers' cache'
  end.

(** *** SESSION_STATES (lines 173-189), on the dictionary itself *)

Inductive PyVal :=
| PyStr (s : string)
| PyBytes (b : bytes).

(** [if key not in st.session_state: st.session_state[key] = ''] *)
Definition init_key (key : string) (d : gmap string PyVal) : gmap string PyVal :=
  match d !! key with
  | Some _ => d
  | None => <[key := PyStr ""]> d
  end.

Definition session_keys : list string :=
  ["audio_bytes"; "video_bytes"; "audio_bytes_md5"; "video_bytes_md5";
   "audio_summary"; "video_summary"].

Definition init_session_state (d : gmap string PyVal) : gmap string PyVal :=
  init_key "video_summary"
    (init_key "audio_summary"
       (init_key "video_bytes_md5"
          (init_key "audio_bytes_md5"
             (init_key "video_bytes"
                (init_key "audio_bytes" d))))).

(** *** What the requests of the script look like *)

Definition openai_request_ok (r : Request) : Prop :=
  match r with
  | TranscriptionsCreate m name _ fmt =>
      m = "whisper-1" ∧ name = "audio.mp3" ∧ fmt = "verbose_json"
  | ChatCompletionsCreate m temperature role content =>
      m = "gpt-4o" ∧ temperature = 0%Z ∧ role = "user" ∧
      ∃ t, content = (prompt ++ ": " ++ t)%string
  | EmbeddingsCreate m input d =>
      m = "text-embedding-3-large" ∧ d = 3072 ∧ ∃ t, input = [t] ∧ t ≠ ""
  | _ => True
  end.

Definition qdrant_request_ok (r : Request) : Prop :=
  match r with
  | CollectionExists n => n = "SUMMARIES"
  | CreateCollection n cfg =>
      n = "SUMMARIES" ∧ cfg = {| size_ := 3072; distance := COSINE |}
  | Count n exact => n = "SUMMARIES" ∧ exact = true
  | Upsert n pts =>
      n = "SUMMARIES" ∧
      ∃ id v s, pts = [summary_point id v s] ∧ 1 ≤ id ∧ s ≠ ""
  | Scroll n limit => n = "SUMMARIES" ∧ limit = 10
  | Search n _ limit => n = "SUMMARIES" ∧ limit = 10
  | _ => True
  end.

Definition is_collection_check (r : Request) : Prop :=
  match r with
  | CollectionExists _ | CreateCollection _ _ => True
  | _ => False
  end.

(** What [show_note] puts on the page for a note. *)
Definition shown (n : NoteView) : list Element :=
  StWrite (text n) ::
  match score n with
  | Some sc =>
      if Qeq_bool sc 0 then [] else [StMetric "Similarity: " (round2 sc)]
  | None => []
  end.

Definition no_buttons (ui : Widgets) : Prop :=
  idle (audio_widgets ui) ∧ idle (video_widgets ui) ∧ search_clicked ui = false.

(** The same tab with no button pressed. *)
Definition released (ui : TabWidgets) : TabWidgets :=
  {| uploaded_user_file := uploaded_user_file ui;
     generate_clicked := false; save_clicked := false |}.

(** Lists of requests: [l] is a beginning of [l']. *)
Definition begins (l l' : list Request) : Prop := ∃ rest, l' = l ++ rest.

(** What lines 15-20 make of a key: the secret when there is one,
    else the value of [.env]. *)
Definition configured (dotenv secrets : gmap string string) (key : string)
    : option string :=
  match secrets !! key with
  | Some v => Some v
  | None => dotenv !! key
  end.

(** More concrete inputs. *)
Definition undecodable : Services :=
  {| pydub_mp3 := λ _, None;
     md5_hexdigest := String.string_of_list_byte;
     openai_transcription := λ _ _, Some "they met at noon";
     openai_chat := λ _ _, Some "S1";
     openai_embedding := λ _ t d, Some (replicate d (Z.of_nat (String.length t) # 1));
     qdrant_reachable := λ _, true;
     approximate_count := λ n, n;
     similarity := λ _, first_coordinates |}.

Definition no_file : TabWidgets :=
  {| uploaded_user_file := None; generate_clicked := false;
     save_clicked := false |}.

(** The run started by putting file A in the audio uploader. *)
Definition upload_A_run : Widgets :=
  {| api_key_input := ""; audio_widgets := upload_only file_A;
     video_widgets := no_file; query_input := ""; search_clicked := false |}.

(** A session without a key. *)
Definition keyless_world : World :=
  {| session_state := initial_session;
     qdrant := ∅; requests := []; page := []; stdout := [] |}.

(** A collection with one point that has no summary. *)
Definition bare_point : StoredPoint :=
  {| stored_vector := []; stored_payload := ∅ |}.

Definition bare_collection : Collection :=
  {| vectors_config := program_config; points := {[ 1 := bare_point ]} |}.

Definition bare_world : World :=
  stored {[ COLLECTION_NAME := bare_collection ]} fresh_world.

(** A collection of 4 dimensions under the program's name. *)
Definition small_collection : Collection :=
  empty_collection {| size_ := 4; distance := COSINE |}.

Definition small_world : World :=
  stored {[ COLLECTION_NAME := small_collection ]} summarised_world.

Definition dotenv_demo : gmap string string :=
  {[ "QDRANT_URL" := "http://localhost:6333"; "QDRANT_API" := "local-key" ]}.

Definition secrets_demo : gmap string string :=
  {[ "QDRANT_URL" := "https://cloud.example" ]}.

(** ** Running the monad *)

Lemma bind_ok {A B} (m : App A) (k : A → App B) w a w' :
  m w = (Ok a, w') → (m ≫= k) w = k a w'.
Proof. intros H. unfold mbind, App_bind, bind. by rewrite H. Qed.

Lemma bind_raise {A B} (m : App A) (k : A → App B) w e w' :
  m w = (Raise e, w') → (m ≫= k) w = (Raise e, w').
Proof. intros H. unfold mbind, App_bind, bind. by rewrite H. Qed.

(** A failing sequence failed in its first part, or its first part
    went through and the rest failed. *)
Lemma bind_raise_inv {A B} (m : App A) (k : A → App B) w e w' :
  (m ≫= k) w = (Raise e, w') →
  m w = (Raise e, w') ∨ ∃ a w1, m w = (Ok a, w1) ∧ k a w1 = (Raise e, w').
Proof.
  unfold mbind, App_bind, bind. destruct (m w) as [[a|e1] w1]; intros H.
  - right. eauto.
  - left. congruence.
Qed.

Lemma bind_ok_inv {A B} (m : App A) (k : A → App B) w b w' :
  (m ≫= k) w = (Ok b, w') →
  ∃ a w1, m w = (Ok a, w1) ∧ k a w1 = (Ok b, w').
Proof.
  unfold mbind, App_bind, bind. destruct (m w) as [[a|e1] w1]; intros H.
  - eauto.
  - discriminate.
Qed.

Ltac run :=
  unfold mbind, App_bind, bind, mret, App_ret, ret, raise, when,
    get_session, modify_session, get_qdrant, put_qdrant, get_requests,
    send, render, print; simpl.

(** ** Uploads and the stored fingerprint *)

Section Upload.

Context (env : Services).

(** C1. An upload whose converted bytes have a fingerprint other than
    the stored one empties the stored summary of that kind and stores
    the new fingerprint; an upload with the stored fingerprint leaves
    the summary (and the fingerprint) as they were.  In both cases the
    upload goes through and the converted bytes are stored. *)
Theorem upload_resets_summary_on_new_fingerprint
    (k : MediaKind) (f : UploadedFile) (b : bytes) (w : World) :
  pydub_mp3 env f = Some b →
  ∃ w',
    upload env k f w = (Ok tt, w') ∧
    stored_bytes k (session_state w') = Mp3 b ∧
    stored_md5 k (session_state w') = md5_hexdigest env b ∧
    (md5_hexdigest env b ≠ stored_md5 k (session_state w) →
       stored_summary k (session_state w') = "") ∧
    (md5_hexdigest env b = stored_md5 k (session_state w) →
       stored_summary k (session_state w') = stored_summary k (session_state w)).
Proof.
  intros Hconv. destruct k; simpl.
  - unfold audio_upload, convert_user_file, md5. rewrite Hconv. run.
    case_bool_decide as Hd; simpl; eexists; (split; [reflexivity|]); simpl;
      repeat split; try done; intros; congruence.
  - unfold video_upload, convert_user_file, md5. rewrite Hconv. run.
    case_bool_decide as Hd; simpl; eexists; (split; [reflexivity|]); simpl;
      repeat split; try done; intros; congruence.
Qed.

End Upload.

(** ** The Qdrant client, call by call *)

Section Store.

Context (env : Services).

Lemma qdrant_request_up r w :
  qdrant_reachable env (requests w) = true →
  qdrant_request env r w = (Ok tt, logged r w).
Proof. intros H. unfold qdrant_request. run. by rewrite H. Qed.

Lemma qdrant_request_down r w :
  qdrant_reachable env (requests w) = false →
  qdrant_request env r w = (Raise StoreError, logged r w).
Proof. intros H. unfold qdrant_request. run. by rewrite H. Qed.

(** A request changes the log and nothing else, whether it is answered
    or not. *)
Lemma qdrant_request_cases r w :
  ∃ res, qdrant_request env r w = (res, logged r w).
Proof.
  unfold qdrant_request. run. destruct (qdrant_reachable env (requests w)); eauto.
Qed.

Lemma client_collection_exists_up n w :
  qdrant_reachable env (requests w) = true →
  client_collection_exists env n w =
    (Ok (bool_decide (is_Some (qdrant w !! n))), logged (CollectionExists n) w).
Proof.
  intros H. unfold client_collection_exists.
  rewrite (bind_ok _ _ _ _ _ (qdrant_request_up _ _ H)). reflexivity.
Qed.

Lemma client_create_collection_absent n cfg w :
  qdrant_reachable env (requests w) = true →
  qdrant w !! n = None →
  client_create_collection env n cfg w =
    (Ok tt, stored (<[n := empty_collection cfg]> (qdrant w))
              (logged (CreateCollection n cfg) w)).
Proof.
  intros H Hn. unfold client_create_collection.
  rewrite (bind_ok _ _ _ _ _ (qdrant_request_up _ _ H)). run. by rewrite Hn.
Qed.

Lemma client_count_exact n w c :
  qdrant_reachable env (requests w) = true →
  qdrant w !! n = Some c →
  client_count env n true w = (Ok (size (points c)), logged (Count n true) w).
Proof.
  intros H Hn. unfold client_count.
  rewrite (bind_ok _ _ _ _ _ (qdrant_request_up _ _ H)). run. by rewrite Hn.
Qed.

Lemma client_upsert_one n p w c :
  qdrant_reachable env (requests w) = true →
  qdrant w !! n = Some c →
  length (point_vector p) = size_ (vectors_config c) →
  client_upsert env n [p] w =
    (Ok tt,
     stored (<[n := {| vectors_config := vectors_config c;
                       points := <[point_id p :=
                                    {| stored_vector := point_vector p;
                                       stored_payload := point_payload p |}]>
                                   (points c) |}]> (qdrant w))
       (logged (Upsert n [p]) w)).
Proof.
  intros H Hn Hlen. unfold client_upsert.
  rewrite (bind_ok _ _ _ _ _ (qdrant_request_up _ _ H)). run. rewrite Hn.
  unfold store_point. by rewrite decide_True.
Qed.

Lemma get_embedding_some s v w :
  openai_embedding env (requests w) s EMBEDDING_DIM = Some v →
  get_embedding env s w =
    (Ok v, logged (EmbeddingsCreate EMBEDDING_MODEL [s] EMBEDDING_DIM) w).
Proof. intros H. unfold get_embedding. run. by rewrite H. Qed.

(** One run of [add_note_to_qdrant] that goes through, as a world. *)
Lemma add_note_run (s : string) (w : World) (c : Collection) (v : vector) :
  let count_request := Count COLLECTION_NAME true in
  let embed_request := EmbeddingsCreate EMBEDDING_MODEL [s] EMBEDDING_DIM in
  let note := summary_point (size (points c) + 1) v s in
  qdrant w !! COLLECTION_NAME = Some c →
  qdrant_reachable env (requests w) = true →
  openai_embedding env (requests w ++ [count_request]) s EMBEDDING_DIM = Some v →
  qdrant_reachable env (requests w ++ [count_request; embed_request]) = true →
  length v = size_ (vectors_config c) →
  add_note_to_qdrant env s w =
    (Ok tt,
     stored (<[COLLECTION_NAME := with_point c (size (points c) + 1) v s]> (qdrant w))
       (logged (Upsert COLLECTION_NAME [note])
          (logged embed_request (logged count_request w)))).
Proof.
  intros r1 r2 note Hc Hup1 Hemb Hup2 Hlen. unfold add_note_to_qdrant.
  rewrite (bind_ok _ _ _ _ _ (client_count_exact _ _ _ Hup1 Hc)).
  rewrite (bind_ok _ _ _ _ _ (get_embedding_some s v (logged r1 w) Hemb)).
  rewrite (client_upsert_one COLLECTION_NAME note _ c).
  - reflexivity.
  - simpl. rewrite <- (assoc_L (++)). exact Hup2.
  - exact Hc.
  - exact Hlen.
Qed.

(** C2. [add_note_to_qdrant s] asks for the exact count of the
    collection, asks for the embedding of [s], and upserts one point:
    its id is the count plus one, its vector the embedding, its payload
    the dictionary with [s] under "summary".  It issues these three
    requests and no other, stores that point and leaves the session
    alone. *)
Theorem add_note_uses_count_plus_one
    (s : string) (w : World) (c : Collection) (v : vector) :
  let count_request := Count COLLECTION_NAME true in
  let embed_request := EmbeddingsCreate EMBEDDING_MODEL [s] EMBEDDING_DIM in
  let note :=
    {| point_id := size (points c) + 1;
       point_vector := v;
       point_payload := {[ "summary" := s ]} |} in
  qdrant w !! COLLECTION_NAME = Some c →
  qdrant_reachable env (requests w) = true →
  openai_embedding env (requests w ++ [count_request]) s EMBEDDING_DIM = Some v →
  qdrant_reachable env (requests w ++ [count_request; embed_request]) = true →
  length v = size_ (vectors_config c) →
  ∃ w',
    add_note_to_qdrant env s w = (Ok tt, w') ∧
    requests w' =
      requests w ++ [count_request; embed_request; Upsert COLLECTION_NAME [note]] ∧
    qdrant w' =
      <[COLLECTION_NAME :=
          {| vectors_config := vectors_config c;
             points := <[size (points c) + 1 :=
                          {| stored_vector := v;
                             stored_payload := {[ "summary" := s ]} |}]>
                         (points c) |}]> (qdrant w) ∧
    session_state w' = session_state w.
Proof.
  intros r1 r2 note Hc Hup1 Hemb Hup2 Hlen.
  eexists. split; [by apply (add_note_run s w c v)|]. simpl.
  rewrite <- !(assoc_L (++)). done.
Qed.

(** The two runs of [check_if_collection_exists] that go through. *)
Lemma check_when_present w c :
  qdrant_reachable env (requests w) = true →
  qdrant w !! COLLECTION_NAME = Some c →
  check_if_collection_exists env w =
    (Ok tt, printed "Collection exists" (logged (CollectionExists COLLECTION_NAME) w)).
Proof.
  intros Hup Hc. unfold check_if_collection_exists.
  rewrite (bind_ok _ _ _ _ _ (client_collection_exists_up _ _ Hup)).
  by rewrite Hc, bool_decide_true by eauto.
Qed.

Lemma check_when_absent w :
  let cfg := {| size_ := EMBEDDING_DIM; distance := COSINE |} in
  qdrant_reachable env (requests w) = true →
  qdrant_reachable env (requests w ++ [CollectionExists COLLECTION_NAME]) = true →
  qdrant w !! COLLECTION_NAME = None →
  check_if_collection_exists env w =
    (Ok tt,
     stored (<[COLLECTION_NAME := empty_collection cfg]> (qdrant w))
       (logged (CreateCollection COLLECTION_NAME cfg)
          (printed "Creating collection"
             (logged (CollectionExists COLLECTION_NAME) w)))).
Proof.
  intros cfg Hup1 Hup2 Hn. unfold check_if_collection_exists.
  rewrite (bind_ok _ _ _ _ _ (client_collection_exists_up _ _ Hup1)).
  rewrite Hn, bool_decide_false by (intros [? ?]; discriminate). simpl.
  rewrite (bind_ok _ _ (logged _ w) tt
             (printed "Creating collection" (logged _ w))) by reflexivity.
  by rewrite client_create_collection_absent.
Qed.

(** C3. [check_if_collection_exists] on a store that answers: when the
    collection is there it only asks whether it is, creates nothing and
    does not raise; when it is absent it creates it empty, with
    [EMBEDDING_DIM] = 3072 dimensions and the cosine distance; and a
    second call right after a first finds the collection of the first
    call and leaves the store, hence size and distance, as they are. *)
Theorem check_if_collection_exists_idempotent (w : World) :
  (∀ h, qdrant_reachable env h = true) →
  (∀ c, qdrant w !! COLLECTION_NAME = Some c →
     ∃ w', check_if_collection_exists env w = (Ok tt, w') ∧
           qdrant w' = qdrant w ∧
           requests w' = requests w ++ [CollectionExists COLLECTION_NAME]) ∧
  (qdrant w !! COLLECTION_NAME = None →
     ∃ w', check_if_collection_exists env w = (Ok tt, w') ∧
           qdrant w' =
             <[COLLECTION_NAME :=
                 empty_collection {| size_ := 3072; distance := COSINE |}]>
               (qdrant w) ∧
           requests w' =
             requests w ++
               [CollectionExists COLLECTION_NAME;
                CreateCollection COLLECTION_NAME
                  {| size_ := 3072; distance := COSINE |}]) ∧
  (∃ w1 w2 c,
     check_if_collection_exists env w = (Ok tt, w1) ∧
     check_if_collection_exists env w1 = (Ok tt, w2) ∧
     qdrant w1 !! COLLECTION_NAME = Some c ∧
     qdrant w2 = qdrant w1 ∧
     vectors_config <$> (qdrant w2 !! COLLECTION_NAME) = Some (vectors_config c) ∧
     requests w2 = requests w1 ++ [CollectionExists COLLECTION_NAME]).
Proof.
  intros Hup.
  assert (Hthere : ∀ w0 c, qdrant w0 !! COLLECTION_NAME = Some c →
     ∃ w', check_if_collection_exists env w0 = (Ok tt, w') ∧
           qdrant w' = qdrant w0 ∧
           requests w' = requests w0 ++ [CollectionExists COLLECTION_NAME]).
  { intros w0 c Hc. eexists. split; [by apply (check_when_present w0 c)|]. done. }
  assert (Habsent : qdrant w !! COLLECTION_NAME = None →
     ∃ w', check_if_collection_exists env w = (Ok tt, w') ∧
           qdrant w' =
             <[COLLECTION_NAME :=
                 empty_collection {| size_ := 3072; distance := COSINE |}]>
               (qdrant w) ∧
           requests w' =
             requests w ++
               [CollectionExists COLLECTION_NAME;
                CreateCollection COLLECTION_NAME
                  {| size_ := 3072; distance := COSINE |}]).
  { intros Hn. eexists. split; [by apply (check_when_absent w)|]. simpl.
    rewrite <- (assoc_L (++)). done. }
  split; [apply Hthere|]. split; [exact Habsent|].
  destruct (qdrant w !! COLLECTION_NAME) as [c|] eqn:Hc.
  - destruct (Hthere w c Hc) as (w1 & H1 & Hq1 & _).
    assert (Hc1 : qdrant w1 !! COLLECTION_NAME = Some c) by (by rewrite Hq1).
    destruct (Hthere w1 c Hc1) as (w2 & H2 & Hq2 & Hr2).
    exists w1, w2, c. rewrite Hq2, Hc1. done.
  - destruct (Habsent eq_refl) as (w1 & H1 & Hq1 & _).
    assert (Hc1 : qdrant w1 !! COLLECTION_NAME =
                  Some (empty_collection {| size_ := 3072; distance := COSINE |}))
      by (rewrite Hq1; apply lookup_insert_eq).
    destruct (Hthere w1 _ Hc1) as (w2 & H2 & Hq2 & Hr2).
    exists w1, w2, (empty_collection {| size_ := 3072; distance := COSINE |}).
    rewrite Hq2, Hc1. done.
Qed.

(** *** Saving the same summary twice *)

Lemma next_id_free c : ids_within_count c → points c !! (size (points c) + 1) = None.
Proof.
  intros Hids. destruct (points c !! (size (points c) + 1)) eqn:Hl; [|done].
  assert (size (points c) + 1 ≤ size (points c)) by (apply Hids; eauto). lia.
Qed.

Lemma with_point_size c v s :
  ids_within_count c →
  size (points (with_point c (size (points c) + 1) v s)) = size (points c) + 1.
Proof.
  intros Hids. simpl. rewrite map_size_insert_None by by apply next_id_free. lia.
Qed.

(** Storing under count plus one keeps the ids within the count. *)
Lemma with_point_ids_within_count c v s :
  ids_within_count c →
  ids_within_count (with_point c (size (points c) + 1) v s).
Proof.
  intros Hids i. rewrite with_point_size by done. simpl.
  rewrite lookup_insert. case_decide; [lia|].
  intros Hi. apply Hids in Hi. lia.
Qed.

Lemma with_point_ids_one_to_count c v s :
  ids_one_to_count c →
  ids_one_to_count (with_point c (size (points c) + 1) v s).
Proof.
  intros Hids.
  assert (ids_within_count c) as Hw by (intros i Hi; apply Hids in Hi; lia).
  intros i. rewrite with_point_size by done. simpl.
  rewrite lookup_insert. case_decide as Hi.
  - split; [lia | eauto].
  - rewrite (Hids i). lia.
Qed.

Lemma save_run k w c v :
  let s := stored_summary k (session_state w) in
  let count_request := Count COLLECTION_NAME true in
  let embed_request := EmbeddingsCreate EMBEDDING_MODEL [s] EMBEDDING_DIM in
  qdrant w !! COLLECTION_NAME = Some c →
  (∀ h, qdrant_reachable env h = true) →
  openai_embedding env (requests w ++ [count_request]) s EMBEDDING_DIM = Some v →
  length v = size_ (vectors_config c) →
  ∃ w',
    save env k w = (Ok tt, w') ∧
    session_state w' = session_state w ∧
    qdrant w' =
      <[COLLECTION_NAME := with_point c (size (points c) + 1) v s]> (qdrant w) ∧
    requests w' =
      requests w ++
        [count_request; embed_request;
         Upsert COLLECTION_NAME [summary_point (size (points c) + 1) v s]].
Proof.
  intros s r1 r2 Hc Hup Hemb Hlen.
  pose proof (add_note_run s w c v Hc (Hup _) Hemb (Hup _) Hlen) as Hrun.
  destruct k; simpl in *; unfold audio_save, video_save; run;
    unfold s in Hrun; simpl in Hrun; rewrite Hrun; simpl;
    (eexists; split; [reflexivity|]); simpl;
    by rewrite <- !(assoc_L (++)).
Qed.

(** C8. Saving is not idempotent.  On a store that answers and holds
    the collection with [EMBEDDING_DIM] dimensions and no id above its
    count, with an embedding service that answers, pressing Save twice
    on the same summary [s] goes through twice and sends two upserts:
    the first stores [s] under count plus one, the second finds the
    count one higher and stores [s] again under the next id.  Both ids
    were free, so the collection ends with two more points, both with
    the payload of [s]; the summary in the session is still [s]. *)
Theorem save_twice_stores_two_notes (k : MediaKind) (w : World) (c : Collection) :
  let s := stored_summary k (session_state w) in
  let n := size (points c) in
  qdrant w !! COLLECTION_NAME = Some c →
  size_ (vectors_config c) = EMBEDDING_DIM →
  ids_within_count c →
  (∀ h, qdrant_reachable env h = true) →
  (∀ h t d, ∃ v, openai_embedding env h t d = Some v ∧ length v = d) →
  ∃ w1 w2 c1 c2 v1 v2,
    save env k w = (Ok tt, w1) ∧
    save env k w1 = (Ok tt, w2) ∧
    qdrant w1 !! COLLECTION_NAME = Some c1 ∧
    size (points c1) = n + 1 ∧
    qdrant w2 !! COLLECTION_NAME = Some c2 ∧
    size (points c2) = n + 2 ∧
    points c !! (n + 1) = None ∧
    points c !! (n + 2) = None ∧
    points c2 =
      <[n + 2 := summary_stored v2 s]> (<[n + 1 := summary_stored v1 s]> (points c)) ∧
    requests w2 =
      requests w ++
        [Count COLLECTION_NAME true;
         EmbeddingsCreate EMBEDDING_MODEL [s] EMBEDDING_DIM;
         Upsert COLLECTION_NAME [summary_point (n + 1) v1 s];
         Count COLLECTION_NAME true;
         EmbeddingsCreate EMBEDDING_MODEL [s] EMBEDDING_DIM;
         Upsert COLLECTION_NAME [summary_point (size (points c1) + 1) v2 s]] ∧
    stored_summary k (session_state w2) = s.
Proof.
  intros s n Hc Hdim Hids Hup Hemb.
  destruct (Hemb (requests w ++ [Count COLLECTION_NAME true]) s EMBEDDING_DIM)
    as (v1 & Hv1 & Hl1).
  destruct (save_run k w c v1 Hc Hup Hv1) as (w1 & Hrun1 & Hs1 & Hq1 & Hr1);
    [congruence|].
  set (c1 := with_point c (n + 1) v1 s).
  assert (Hc1 : qdrant w1 !! COLLECTION_NAME = Some c1)
    by (rewrite Hq1; apply lookup_insert_eq).
  assert (Hn1 : size (points c1) = n + 1) by (by apply with_point_size).
  assert (Hids1 : ids_within_count c1) by (by apply with_point_ids_within_count).
  assert (Hsame : stored_summary k (session_state w1) = s) by (by rewrite Hs1).
  destruct (Hemb (requests w1 ++ [Count COLLECTION_NAME true]) s EMBEDDING_DIM)
    as (v2 & Hv2 & Hl2).
  destruct (save_run k w1 c1 v2 Hc1 Hup) as (w2 & Hrun2 & Hs2 & Hq2 & Hr2);
    [by rewrite Hsame | simpl; congruence |].
  rewrite Hsame in Hq2, Hr2.
  exists w1, w2, c1, (with_point c1 (size (points c1) + 1) v2 s), v1, v2.
  split; [done|]. split; [done|]. split; [done|]. split; [done|].
  split; [rewrite Hq2; apply lookup_insert_eq|].
  split; [rewrite with_point_size by done; lia|].
  split; [by apply next_id_free|].
  split.
  { pose proof (next_id_free c1 Hids1) as Hfree. rewrite Hn1 in Hfree.
    simpl in Hfree. rewrite lookup_insert_ne in Hfree by lia.
    by replace (n + 2) with (n + 1 + 1) by lia. }
  split; [rewrite Hn1; by replace (n + 1 + 1) with (n + 2) by lia|].
  split; [rewrite Hr2, Hr1, <- (assoc_L (++)); done|].
  by rewrite Hs2.
Qed.

(** *** What the program's own collections look like *)

Lemma empty_collection_ids cfg : ids_one_to_count (empty_collection cfg).
Proof.
  intros i. simpl. rewrite lookup_empty, map_size_empty. split.
  - by intros [? ?].
  - lia.
Qed.

Lemma ids_one_to_count_within c : ids_one_to_count c → ids_within_count c.
Proof. intros Hids i Hi. apply Hids in Hi. lia. Qed.

Lemma empty_collection_summaries cfg : summaries_present (empty_collection cfg).
Proof. intros i p. simpl. by rewrite lookup_empty. Qed.

Lemma with_point_summaries c id v s :
  summaries_present c → summaries_present (with_point c id v s).
Proof.
  intros Hsum i p. simpl. rewrite lookup_insert. case_decide.
  - intros [= <-]. simpl. rewrite lookup_singleton_eq. eauto.
  - apply Hsum.
Qed.

End Store.

(** ** Listing and searching notes *)

Section Notes.

Context (env : Services).

(** A loop whose body only reads: it leaves the world alone, and it
    either maps every element or stops at the first one that raises. *)
Lemma for_each_reads {A B} (f : A → App B) (g : A → Result B) l w :
  (∀ x w0, f x w0 = (g x, w0)) →
  ∃ res, for_each f l w = (res, w) ∧
    match res with
    | Ok ys => Forall2 (λ x y, g x = Ok y) l ys
    | Raise e => ∃ x, x ∈ l ∧ g x = Raise e
    end.
Proof.
  intros Hf. induction l as [|x l IH]; simpl.
  - exists (Ok []). split; [reflexivity | constructor].
  - unfold mbind, App_bind, bind. rewrite Hf.
    destruct (g x) as [y|e] eqn:Hg.
    + destruct IH as ([ys|e] & -> & Hres).
      * exists (Ok (y :: ys)). split; [reflexivity|]. by constructor.
      * exists (Raise e). split; [reflexivity|].
        destruct Hres as (x' & Hin & Hx'). exists x'. split; [by right | done].
    + exists (Raise e). split; [reflexivity|]. exists x. split; [by left | done].
Qed.

Lemma note_of_record_reads r w : note_of_record r w = (view_record r, w).
Proof.
  unfold note_of_record, view_record, getitem. run.
  by destruct (record_payload r !! "summary").
Qed.

Lemma note_of_hit_reads p w : note_of_hit p w = (view_hit p, w).
Proof.
  unfold note_of_hit, view_hit, getitem. run.
  by destruct (scored_payload p !! "summary").
Qed.

Lemma list_notes_falsy q :
  falsy q = true →
  list_notes_from_qdrant env q =
    (client_scroll env COLLECTION_NAME 10 ≫= for_each note_of_record).
Proof. intros H. unfold list_notes_from_qdrant. by rewrite H. Qed.

(** What the listing branch does, in full: it sends one [scroll]
    request; an answer is turned into notes point by point. *)
Lemma listing_outcome q w :
  falsy q = true →
  ∃ res,
    list_notes_from_qdrant env q w = (res, logged (Scroll COLLECTION_NAME 10) w) ∧
    match res with
    | Ok notes =>
        ∃ c, qdrant w !! COLLECTION_NAME = Some c ∧
             Forall2 lists_point (take 10 (map_to_list (points c))) notes
    | Raise e => e = StoreError ∨ e = KeyError "summary"
    end.
Proof.
  intros Hq. rewrite (list_notes_falsy q Hq).
  unfold client_scroll, qdrant_request. run.
  destruct (qdrant_reachable env (requests w)); simpl;
    [| exists (Raise StoreError); split; [reflexivity | by left]].
  destruct (qdrant w !! COLLECTION_NAME) as [c|] eqn:Hc; simpl;
    [| exists (Raise StoreError); split; [reflexivity | by left]].
  destruct (for_each_reads note_of_record view_record (scroll_page c 10)
              (logged (Scroll COLLECTION_NAME 10) w) note_of_record_reads)
    as (res & Hrun & Hres).
  exists res. split; [exact Hrun|]. destruct res as [notes|e].
  - exists c. split; [done|]. unfold scroll_page in Hres.
    rewrite <- fmap_take in Hres. apply Forall2_fmap_l in Hres.
    eapply Forall2_impl; [exact Hres|]. intros kv n. unfold view_record, lists_point.
    simpl. destruct (stored_payload kv.2 !! "summary"); intros Hv; simplify_eq.
    done.
  - destruct Hres as (x & _ & Hx). right. unfold view_record in Hx.
    destruct (record_payload x !! "summary"); congruence.
Qed.

(** The listing goes through on a store that answers, has the
    collection, and has a summary in every point. *)
Lemma listing_succeeds q w c :
  falsy q = true →
  qdrant_reachable env (requests w) = true →
  qdrant w !! COLLECTION_NAME = Some c →
  summaries_present c →
  ∃ notes, list_notes_from_qdrant env q w =
             (Ok notes, logged (Scroll COLLECTION_NAME 10) w).
Proof.
  intros Hq Hup Hc Hsum. rewrite (list_notes_falsy q Hq).
  unfold client_scroll, qdrant_request. run. rewrite Hup. simpl. rewrite Hc. simpl.
  destruct (for_each_reads note_of_record view_record (scroll_page c 10)
              (logged (Scroll COLLECTION_NAME 10) w) note_of_record_reads)
    as ([notes|e] & Hrun & Hres); [by exists notes|].
  exfalso. destruct Hres as (r & Hin & Hr).
  unfold scroll_page in Hin. apply subseteq_take in Hin.
  apply list_elem_of_fmap in Hin as ([i p] & -> & Hin).
  apply elem_of_map_to_list in Hin. apply Hsum in Hin as [t Ht].
  unfold view_record in Hr. simpl in Hr. rewrite Ht in Hr. discriminate.
Qed.

Lemma lists_point_bounds kvs notes :
  Forall2 lists_point (take 10 kvs) notes →
  length notes ≤ 10 ∧ Forall (λ n, score n = None) notes.
Proof.
  intros H. split.
  - rewrite <- (Forall2_length _ _ _ H), length_take. lia.
  - eapply Forall2_Forall_r; [exact H|]. apply Forall_forall.
    by intros kv _ n [_ ?].
Qed.

(** C4. The unfiltered listing, on any world: when it returns, it
    returns at most 10 notes and none of them has a score; and it does
    return, with the summaries of the first points of the collection
    in the order of the store, when the store answers, the collection
    is there and every point has a summary. *)
Theorem listing_at_most_ten_unscored (w : World) :
  (∀ notes w', list_notes_from_qdrant env None w = (Ok notes, w') →
     length notes ≤ 10 ∧ Forall (λ n, score n = None) notes) ∧
  (∀ c, qdrant_reachable env (requests w) = true →
        qdrant w !! COLLECTION_NAME = Some c →
        summaries_present c →
     ∃ notes w',
       list_notes_from_qdrant env None w = (Ok notes, w') ∧
       length notes = min 10 (size (points c)) ∧
       Forall2 lists_point (take 10 (map_to_list (points c))) notes).
Proof.
  split.
  - intros notes w' Hrun.
    destruct (listing_outcome None w eq_refl) as (res & Hrun' & Hres).
    rewrite Hrun in Hrun'. injection Hrun' as <- _.
    destruct Hres as (c & _ & Hall). by eapply lists_point_bounds.
  - intros c Hup Hc Hsum.
    destruct (listing_succeeds None w c eq_refl Hup Hc Hsum) as (notes & Hrun).
    destruct (listing_outcome None w eq_refl) as (res & Hrun' & Hres).
    rewrite Hrun in Hrun'. injection Hrun' as <-.
    destruct Hres as (c' & Hc' & Hall). simplify_eq.
    exists notes, (logged (Scroll COLLECTION_NAME 10) w). split; [done|].
    split; [|done].
    rewrite <- (Forall2_length _ _ _ Hall), length_take, length_map_to_list. done.
Qed.

(** A loop whose body leaves some part of the world alone leaves it
    alone as a whole. *)
Lemma for_each_keeps {A B X} (f : A → App B) (part : World → X) l w :
  (∀ x w0, part (f x w0).2 = part w0) →
  part (for_each f l w).2 = part w.
Proof.
  intros Hf. revert w. induction l as [|x l IH]; intros w; simpl; [done|].
  unfold mbind, App_bind, bind. specialize (Hf x w).
  destruct (f x w) as [[y|e] w1]; simpl in *; [|done].
  specialize (IH w1). destruct (for_each f l w1) as [[ys|e] w2]; simpl in *;
    congruence.
Qed.

Lemma show_note_requests n w : requests (show_note n w).2 = requests w.
Proof.
  unfold show_note. run. destruct (score n) as [sc|]; [|done].
  by destruct (Qeq_bool sc 0).
Qed.

Lemma show_note_session n w : session_state (show_note n w).2 = session_state w.
Proof.
  unfold show_note. run. destruct (score n) as [sc|]; [|done].
  by destruct (Qeq_bool sc 0).
Qed.

Lemma show_note_qdrant n w : qdrant (show_note n w).2 = qdrant w.
Proof.
  unfold show_note. run. destruct (score n) as [sc|]; [|done].
  by destruct (Qeq_bool sc 0).
Qed.

(** C10. A query that is empty (or [None]) takes the listing branch:
    the only request is one [scroll] with limit 10, so the embedding
    client is not called, and what is returned is at most 10 notes
    without a score.  The same holds for the Search button pressed on
    an empty query box. *)
Theorem falsy_query_lists_without_embedding (q : option string) (w : World) :
  falsy q = true →
  (∃ res w',
     list_notes_from_qdrant env q w = (res, w') ∧
     requests w' = requests w ++ [Scroll COLLECTION_NAME 10] ∧
     (∀ notes, res = Ok notes →
        length notes ≤ 10 ∧ Forall (λ n, score n = None) notes)) ∧
  (∃ res w',
     search_tab env "" true w = (res, w') ∧
     requests w' = requests w ++ [Scroll COLLECTION_NAME 10]).
Proof.
  intros Hq. split.
  - destruct (listing_outcome q w Hq) as (res & Hrun & Hres).
    exists res, (logged (Scroll COLLECTION_NAME 10) w).
    split; [done|]. split; [done|]. intros notes ->.
    destruct Hres as (c & _ & Hall). by eapply lists_point_bounds.
  - destruct (listing_outcome (Some "") w eq_refl) as (res & Hrun & _).
    unfold search_tab, when. unfold mbind at 1, App_bind, bind. rewrite Hrun.
    destruct res as [notes|e]; [|by eauto].
    pose proof (for_each_keeps show_note requests notes
                  (logged (Scroll COLLECTION_NAME 10) w) show_note_requests) as Hk.
    unfold mbind, App_bind, bind.
    destruct (for_each show_note notes (logged (Scroll COLLECTION_NAME 10) w))
      as [[u|e] w1]; simpl in Hk; eauto.
Qed.

(** *** The search branch *)

#[local] Instance by_score_desc_trans : Transitive by_score_desc.
Proof. intros a b c Hab Hbc. unfold by_score_desc in *. by eapply Qle_trans. Qed.

#[local] Instance by_score_desc_total : Total by_score_desc.
Proof.
  intros a b. unfold by_score_desc.
  destruct (Qlt_le_dec (scored_score a) (scored_score b)) as [Hlt|Hle].
  - right. by apply Qlt_le_weak.
  - by left.
Qed.

Lemma nearest_ranked sim c qv limit :
  ∃ ranked,
    ranked ≡ₚ (to_scored (sim (distance (vectors_config c))) qv
                 <$> map_to_list (points c)) ∧
    StronglySorted by_score_desc ranked ∧
    nearest sim c qv limit = take limit ranked.
Proof.
  exists (merge_sort by_score_desc
            (to_scored (sim (distance (vectors_config c))) qv
               <$> map_to_list (points c))).
  split; [apply merge_sort_Permutation|].
  split; [apply (StronglySorted_merge_sort by_score_desc)|]. reflexivity.
Qed.

Lemma StronglySorted_take {A} (R : relation A) n l :
  StronglySorted R l → StronglySorted R (take n l).
Proof.
  intros H. rewrite <- (take_drop n l) in H. by apply StronglySorted_app_1_l in H.
Qed.

(** Sortedness of the hits carries over to the notes made of them. *)
Lemma shows_hit_sorted hits notes :
  Forall2 shows_hit hits notes →
  StronglySorted by_score_desc hits →
  StronglySorted note_score_desc notes.
Proof.
  induction 1 as [|p n hits notes [_ Hn] Hall IH]; intros Hs; [constructor|].
  apply StronglySorted_cons in Hs as [Hhd Htl]. constructor; [by apply IH|].
  clear IH Htl. induction Hall as [|p' n' hits notes [_ Hn'] _ IH]; [constructor|].
  apply Forall_cons in Hhd as [Hpp' Hhd]. constructor; [|by apply IH].
  unfold note_score_desc. by rewrite Hn, Hn'.
Qed.

(** C5. A search with a non-empty query, on a store that answers and
    holds the collection with the cosine distance, the dimension of
    the embedding and a summary in every point: the query is embedded
    (one embeddings request, then one search request with that vector
    and limit 10); the answer is the first 10 of the stored points
    ranked by decreasing cosine similarity to the query vector; each
    note shows the stored summary of its point and that similarity as
    its score; so there are at most 10 notes, in order of decreasing
    score. *)
Theorem search_returns_nearest_by_cosine
    (q : string) (w : World) (c : Collection) (v : vector) :
  let embed_request := EmbeddingsCreate EMBEDDING_MODEL [q] EMBEDDING_DIM in
  q ≠ "" →
  qdrant w !! COLLECTION_NAME = Some c →
  distance (vectors_config c) = COSINE →
  summaries_present c →
  openai_embedding env (requests w) q EMBEDDING_DIM = Some v →
  length v = size_ (vectors_config c) →
  qdrant_reachable env (requests w ++ [embed_request]) = true →
  ∃ notes w' ranked,
    list_notes_from_qdrant env (Some q) w = (Ok notes, w') ∧
    requests w' = requests w ++ [embed_request; Search COLLECTION_NAME v 10] ∧
    ranked ≡ₚ (to_scored (similarity env COSINE) v <$> map_to_list (points c)) ∧
    StronglySorted by_score_desc ranked ∧
    Forall2 shows_hit (take 10 ranked) notes ∧
    length notes ≤ 10 ∧
    Forall (λ n, is_Some (score n)) notes ∧
    StronglySorted note_score_desc notes.
Proof.
  intros r1 Hq Hc Hcos Hsum Hemb Hlen Hup.
  destruct (nearest_ranked (similarity env) c v 10) as (ranked & Hperm & Hsorted & Hnear).
  rewrite Hcos in Hperm.
  assert (Hfalsy : falsy (Some q) = false) by (simpl; by rewrite bool_decide_false).
  subst r1.
  set (w1 := logged (EmbeddingsCreate EMBEDDING_MODEL [q] EMBEDDING_DIM) w) in *.
  set (w2 := logged (Search COLLECTION_NAME v 10) w1).
  assert (Hsteps : list_notes_from_qdrant env (Some q) w =
                   for_each note_of_hit (take 10 ranked) w2).
  { unfold list_notes_from_qdrant. rewrite Hfalsy.
    unfold get_embedding, client_search, qdrant_request. run.
    rewrite Hemb. simpl. rewrite Hup. simpl. rewrite Hc.
    rewrite decide_True by done. simpl. by rewrite Hnear. }
  rewrite Hsteps.
  destruct (for_each_reads note_of_hit view_hit (take 10 ranked) w2 note_of_hit_reads)
    as ([notes|e] & Hrun & Hres).
  - assert (Hshows : Forall2 shows_hit (take 10 ranked) notes).
    { eapply Forall2_impl; [exact Hres|]. intros p n. unfold view_hit, shows_hit.
      destruct (scored_payload p !! "summary"); intros Hv; simplify_eq. done. }
    exists notes. eexists. exists ranked. split; [exact Hrun|]. simpl.
    split; [by rewrite <- (assoc_L (++))|]. split; [done|]. split; [done|].
    split; [done|]. split; [|split].
    + rewrite <- (Forall2_length _ _ _ Hshows), length_take. lia.
    + eapply Forall2_Forall_r; [exact Hshows|]. apply Forall_forall.
      intros p _ n [_ Hn]. rewrite Hn. eauto.
    + eapply shows_hit_sorted; [exact Hshows|]. by apply StronglySorted_take.
  - exfalso. destruct Hres as (p & Hin & Hp).
    apply subseteq_take in Hin. rewrite Hperm in Hin.
    apply list_elem_of_fmap in Hin as ([i sp] & -> & Hin).
    apply elem_of_map_to_list in Hin. apply Hsum in Hin as [t Ht].
    unfold view_hit in Hp. simpl in Hp. rewrite Ht in Hp. discriminate.
Qed.

End Notes.

(** ** Frames: what a computation leaves alone *)

Section Frames.

Context {X : Type} (part : World → X).

Lemma keeps_ret {A} (a : A) : keeps part (mret a : App A).
Proof. by intros w. Qed.

Lemma keeps_raise {A} e : keeps part (raise e : App A).
Proof. by intros w. Qed.

Lemma keeps_bind {A B} (m : App A) (k : A → App B) :
  keeps part m → (∀ a, keeps part (k a)) → keeps part (m ≫= k).
Proof.
  intros Hm Hk w. specialize (Hm w). unfold after, mbind, App_bind, bind in *.
  destruct (m w) as [[a|e] w1]; simpl in *; [|done].
  rewrite <- Hm. apply Hk.
Qed.

Lemma keeps_when b (m : App unit) : keeps part m → keeps part (when b m).
Proof. intros Hm. destruct b; [done | apply (keeps_ret tt)]. Qed.

Lemma keeps_if {A} (b : bool) (m1 m2 : App A) :
  keeps part m1 → keeps part m2 → keeps part (if b then m1 else m2).
Proof. by destruct b. Qed.

Lemma keeps_for_each {A B} (f : A → App B) l :
  (∀ x, keeps part (f x)) → keeps part (for_each f l).
Proof.
  intros Hf. induction l as [|x l IH]; simpl; [apply keeps_ret|].
  apply keeps_bind; [done|]. intros y. apply keeps_bind; [done|].
  intros ys. apply keeps_ret.
Qed.

Lemma keeps_get_session : keeps part get_session.
Proof. by intros w. Qed.

Lemma keeps_get_qdrant : keeps part get_qdrant.
Proof. by intros w. Qed.

Lemma keeps_get_requests : keeps part get_requests.
Proof. by intros w. Qed.

Lemma keeps_getitem d key : keeps part (getitem d key).
Proof. intros w. unfold getitem. by destruct (d !! key). Qed.

End Frames.

(** A part of the world that is read off the session. *)
Section SessionFrames.

Context {X : Type} (field : Session → X).

Let part (w : World) : X := field (session_state w).

Lemma keeps_send r : keeps part (send r).
Proof. by intros w. Qed.

Lemma keeps_render e : keeps part (render e).
Proof. by intros w. Qed.

Lemma keeps_print line : keeps part (print line).
Proof. by intros w. Qed.

Lemma keeps_put_qdrant q : keeps part (put_qdrant q).
Proof. by intros w. Qed.

Lemma keeps_modify_session f :
  (∀ s, field (f s) = field s) → keeps part (modify_session f).
Proof. intros Hf w. apply Hf. Qed.

End SessionFrames.

Ltac frame_step :=
  first
    [ solve [auto 1]
    | apply keeps_ret | apply keeps_raise
    | apply keeps_get_session | apply keeps_get_qdrant
    | apply keeps_get_requests | apply keeps_getitem
    | apply keeps_send | apply keeps_render | apply keeps_print
    | apply keeps_put_qdrant
    | apply keeps_bind; [| intros ?]
    | apply keeps_when | apply keeps_if
    | apply keeps_for_each; intros ?
    | match goal with
      | |- keeps _ (match ?x with _ => _ end) => destruct x
      end
    | solve [intros ?; reflexivity] ].

Ltac frame := repeat frame_step.

(** *** The services never write to the session *)

Section ServiceFrames.

Context (env : Services) {X : Type} (field : Session → X).

Let part (w : World) : X := field (session_state w).

Lemma keeps_convert_user_file f : keeps part (convert_user_file env f).
Proof. unfold convert_user_file. frame. Qed.

Lemma keeps_BytesIO b : keeps part (BytesIO b).
Proof. unfold BytesIO. frame. Qed.

Lemma keeps_md5 b : keeps part (md5 env b).
Proof. unfold md5. frame. Qed.

Lemma keeps_transcribe_audio b : keeps part (transcribe_audio env b).
Proof. unfold transcribe_audio. pose proof keeps_BytesIO. frame; auto. Qed.

Lemma keeps_summary t : keeps part (summary env t).
Proof. unfold summary. frame. Qed.

Lemma keeps_get_embedding t : keeps part (get_embedding env t).
Proof. unfold get_embedding. frame. Qed.

Lemma keeps_qdrant_request r : keeps part (qdrant_request env r).
Proof. unfold qdrant_request. frame. Qed.

Lemma keeps_check_if_collection_exists :
  keeps part (check_if_collection_exists env).
Proof.
  pose proof keeps_qdrant_request.
  unfold check_if_collection_exists, client_collection_exists,
    client_create_collection.
  frame; auto.
Qed.

Lemma keeps_add_note_to_qdrant t : keeps part (add_note_to_qdrant env t).
Proof.
  pose proof keeps_qdrant_request. pose proof keeps_get_embedding.
  unfold add_note_to_qdrant, client_count, client_upsert.
  frame; auto.
Qed.

Lemma keeps_list_notes_from_qdrant q : keeps part (list_notes_from_qdrant env q).
Proof.
  pose proof keeps_qdrant_request. pose proof keeps_get_embedding.
  unfold list_notes_from_qdrant, client_scroll, client_search.
  frame; auto.
Qed.

Lemma keeps_show_note n : keeps part (show_note n).
Proof. unfold show_note. frame. Qed.

Lemma keeps_search_tab q b : keeps part (search_tab env q b).
Proof.
  pose proof keeps_list_notes_from_qdrant. pose proof keeps_show_note.
  unfold search_tab. frame; auto.
Qed.

End ServiceFrames.

(** ** The two media kinds do not touch each other *)

Section TabFrames.

Context (env : Services) {X : Type} (field : Session → X).

Let part (w : World) : X := field (session_state w).

Lemma keeps_audio_tab ui :
  (∀ b s, field (set_audio_bytes b s) = field s) →
  (∀ h s, field (set_audio_bytes_md5 h s) = field s) →
  (∀ t s, field (set_audio_summary t s) = field s) →
  keeps part (audio_tab env ui).
Proof.
  intros Hb Hh Ht.
  pose proof (keeps_convert_user_file env field).
  pose proof (keeps_md5 env field).
  pose proof (keeps_transcribe_audio env field).
  pose proof (keeps_summary env field).
  pose proof (keeps_add_note_to_qdrant env field).
  unfold audio_tab, audio_upload, audio_generate, audio_expander, audio_save.
  frame; auto; by apply keeps_modify_session.
Qed.

Lemma keeps_video_tab ui :
  (∀ b s, field (set_video_bytes b s) = field s) →
  (∀ h s, field (set_video_bytes_md5 h s) = field s) →
  (∀ t s, field (set_video_summary t s) = field s) →
  keeps part (video_tab env ui).
Proof.
  intros Hb Hh Ht.
  pose proof (keeps_convert_user_file env field).
  pose proof (keeps_md5 env field).
  pose proof (keeps_transcribe_audio env field).
  pose proof (keeps_summary env field).
  pose proof (keeps_add_note_to_qdrant env field).
  unfold video_tab, video_upload, video_generate, video_expander, video_save.
  frame; auto; by apply keeps_modify_session.
Qed.

End TabFrames.

Section Kinds.

Context (env : Services).

Lemma tab_keeps_other_kind k ui : keeps (kind_state (other k)) (tab env k ui).
Proof.
  destruct k; simpl.
  - apply (keeps_audio_tab env
             (λ s, (video_bytes s, video_bytes_md5 s, video_summary s))); done.
  - apply (keeps_video_tab env
             (λ s, (audio_bytes s, audio_bytes_md5 s, audio_summary s))); done.
Qed.

(** C7. Whatever is done in the tab of one media kind (a run with a
    file in its uploader, with or without its Generate or Save button
    pressed), and however many times, returning or raising: the stored
    bytes, fingerprint and summary of the other kind stay as they
    were. *)
Theorem tabs_of_one_kind_keep_the_other
    (k : MediaKind) (acts : list (MediaKind * TabWidgets)) (w : World) :
  Forall (λ a, a.1 = k) acts →
  kind_state (other k) (run_tabs env acts w) = kind_state (other k) w.
Proof.
  intros Hall. revert w.
  induction Hall as [|[k' ui] acts Hk _ IH]; intros w; simpl; [done|].
  simpl in Hk. subst k'. rewrite IH. apply tab_keeps_other_kind.
Qed.

(** ** A failed action leaves the session as it was *)

Lemma save_keeps_session k : keeps session_state (save env k).
Proof.
  pose proof (keeps_add_note_to_qdrant env (λ s, s)).
  destruct k; simpl; unfold audio_save, video_save; frame; auto;
    apply (keeps_render (λ s, s)).
Qed.

Lemma generate_raise_keeps_session k w e w' :
  generate env k w = (Raise e, w') → session_state w' = session_state w.
Proof.
  pose proof (keeps_transcribe_audio env (λ s, s)) as Htr.
  pose proof (keeps_summary env (λ s, s)) as Hsum.
  intros H.
  assert (∃ b set, generate env k w =
            (transcribe_audio env b ≫= λ t, summary env t ≫= λ r,
               modify_session (set r)) w) as (b & set & Hgen).
  { destruct k; simpl; eexists _, _; reflexivity. }
  rewrite Hgen in H. clear Hgen.
  apply bind_raise_inv in H as [H | (t & w1 & H1 & H)].
  { specialize (Htr b w). unfold after in Htr. by rewrite H in Htr. }
  specialize (Htr b w). unfold after in Htr. rewrite H1 in Htr. simpl in Htr.
  apply bind_raise_inv in H as [H | (r & w2 & H2 & H)].
  { specialize (Hsum t w1). unfold after in Hsum. rewrite H in Hsum.
    simpl in Hsum. congruence. }
  discriminate.
Qed.

(** C6. When the body of a Generate button (transcription, then
    summarisation) or of a Save button (count, embedding, upsert)
    raises, whichever call failed, the session is what it was before
    the button was pressed: in particular the stored bytes, fingerprint
    and summary of that kind. *)
Theorem failed_action_keeps_session
    (k : MediaKind) (w w' : World) (e : Exception) :
  generate env k w = (Raise e, w') ∨ save env k w = (Raise e, w') →
  session_state w' = session_state w ∧ kind_state k w' = kind_state k w.
Proof.
  intros H.
  assert (Hs : session_state w' = session_state w).
  { destruct H as [H|H].
    - by eapply generate_raise_keeps_session.
    - pose proof (save_keeps_session k w) as Hk. unfold after in Hk.
      by rewrite H in Hk. }
  split; [done|]. unfold kind_state. by rewrite Hs.
Qed.

End Kinds.

(** ** The requests a computation sends *)

Section Emits.

Context (P : Request → Prop).

Lemma emits_quiet {A} (m : App A) : keeps requests m → emits P m.
Proof.
  intros Hm w. exists []. split; [|constructor]. rewrite Hm. by rewrite app_nil_r.
Qed.

Lemma emits_send r : P r → emits P (send r).
Proof. intros Hr w. exists [r]. split; [done|]. by constructor. Qed.

Lemma emits_bind {A B} (m : App A) (k : A → App B) :
  emits P m → (∀ a, emits P (k a)) → emits P (m ≫= k).
Proof.
  intros Hm Hk w. destruct (Hm w) as (new1 & Hr1 & HP1).
  unfold after, mbind, App_bind, bind in *.
  destruct (m w) as [[a|e] w1]; simpl in *; [|by eauto].
  destruct (Hk a w1) as (new2 & Hr2 & HP2). exists (new1 ++ new2).
  split; [|by apply Forall_app]. unfold after in Hr2.
  by rewrite Hr2, Hr1, (assoc_L (++)).
Qed.

Lemma emits_when b (m : App unit) : emits P m → emits P (when b m).
Proof. intros Hm. destruct b; [done|]. by apply emits_quiet. Qed.

Lemma emits_if {A} (b : bool) (m1 m2 : App A) :
  emits P m1 → emits P m2 → emits P (if b then m1 else m2).
Proof. by destruct b. Qed.

Lemma emits_for_each {A B} (f : A → App B) l :
  (∀ x, emits P (f x)) → emits P (for_each f l).
Proof.
  intros Hf. induction l as [|x l IH]; simpl; [by apply emits_quiet|].
  apply emits_bind; [done|]. intros y. apply emits_bind; [done|].
  intros ys. by apply emits_quiet.
Qed.

End Emits.

Ltac emit_step :=
  first
    [ solve [auto 1]
    | apply emits_send
    | apply emits_bind; [| intros ?]
    | apply emits_when | apply emits_if
    | apply emits_for_each; intros ?
    | match goal with
      | |- emits _ (match ?x with _ => _ end) => destruct x
      end
    | solve [apply emits_quiet; intros ?; reflexivity] ].

Ltac emit := repeat emit_step.

Section Dimensions.

Context (env : Services).

(** A request that names a number of dimensions names [EMBEDDING_DIM]. *)
Let shared (r : Request) : Prop :=
  ∀ d, request_dimension r = Some d → d = EMBEDDING_DIM.

Lemma emits_getitem P d key : emits P (getitem d key).
Proof. unfold getitem. emit. Qed.

Lemma emits_qdrant_request r : shared r → emits shared (qdrant_request env r).
Proof. intros Hr. unfold qdrant_request. emit. Qed.

Lemma emits_get_embedding t : emits shared (get_embedding env t).
Proof. unfold get_embedding. emit. intros d Hd. simpl in Hd. congruence. Qed.

Lemma emits_transcribe_audio b : emits shared (transcribe_audio env b).
Proof. unfold transcribe_audio, BytesIO. emit. intros d Hd. discriminate. Qed.

Lemma emits_summary t : emits shared (summary env t).
Proof. unfold summary. emit. intros d Hd. discriminate. Qed.

Lemma emits_check_if_collection_exists :
  emits shared (check_if_collection_exists env).
Proof.
  unfold check_if_collection_exists, client_collection_exists,
    client_create_collection.
  unfold qdrant_request. emit; intros d Hd; simpl in Hd; congruence.
Qed.

Lemma emits_add_note_to_qdrant t : emits shared (add_note_to_qdrant env t).
Proof.
  pose proof emits_get_embedding.
  unfold add_note_to_qdrant, client_count, client_upsert.
  unfold qdrant_request. emit; intros d Hd; discriminate.
Qed.

Lemma emits_list_notes_from_qdrant q : emits shared (list_notes_from_qdrant env q).
Proof.
  pose proof emits_get_embedding. pose proof (emits_getitem shared).
  unfold list_notes_from_qdrant, client_scroll, client_search.
  unfold qdrant_request. emit; intros d Hd; discriminate.
Qed.

Lemma emits_tab k ui : emits shared (tab env k ui).
Proof.
  pose proof emits_transcribe_audio. pose proof emits_summary.
  pose proof emits_add_note_to_qdrant.
  destruct k; simpl;
    unfold audio_tab, audio_upload, audio_generate, audio_expander, audio_save,
      video_tab, video_upload, video_generate, video_expander, video_save,
      convert_user_file, md5;
    emit.
Qed.

Lemma emits_search_tab q b : emits shared (search_tab env q b).
Proof.
  pose proof emits_list_notes_from_qdrant.
  unfold search_tab, show_note. emit.
Qed.

Lemma emits_app ui : emits shared (app env ui).
Proof.
  pose proof emits_check_if_collection_exists.
  pose proof (emits_tab Audio). pose proof (emits_tab Video).
  pose proof emits_search_tab.
  unfold app, main. simpl in *. emit.
Qed.

(** C9. One constant, [EMBEDDING_DIM] = 3072, is the number of
    dimensions in every request the program sends that names one: in
    every embeddings request (the [dimensions] asked for) and in every
    collection creation (the [size] of its vectors), whatever the run
    of the script and whatever the services answer.  [get_embedding]
    sends its request with it, and a run of
    [check_if_collection_exists] that finds no collection sends the
    creation with it. *)
Theorem embedding_and_collection_share_dimension :
  EMBEDDING_DIM = 3072 ∧
  (∀ ui w, ∃ new,
     requests (after (app env ui) w) = requests w ++ new ∧
     Forall (λ r, ∀ d, request_dimension r = Some d → d = EMBEDDING_DIM) new) ∧
  (∀ t w,
     requests (after (get_embedding env t) w) =
       requests w ++ [EmbeddingsCreate EMBEDDING_MODEL [t] EMBEDDING_DIM]) ∧
  (∀ w,
     qdrant_reachable env (requests w) = true →
     qdrant_reachable env (requests w ++ [CollectionExists COLLECTION_NAME]) = true →
     qdrant w !! COLLECTION_NAME = None →
     requests (after (check_if_collection_exists env) w) =
       requests w ++
         [CollectionExists COLLECTION_NAME;
          CreateCollection COLLECTION_NAME
            {| size_ := EMBEDDING_DIM; distance := COSINE |}]).
Proof.
  split; [reflexivity|]. split; [intros ui w; apply emits_app|]. split.
  - intros t w. unfold after, get_embedding. run.
    by destruct (openai_embedding env (requests w) t EMBEDDING_DIM).
  - intros w Hup Hup' Hn. unfold after.
    rewrite (check_when_absent env w Hup Hup' Hn). simpl.
    by rewrite <- (assoc_L (++)).
Qed.

End Dimensions.

(** ** Whole runs of the script *)

Section Runs.

Context (env : Services).

Lemma tab_unfold k ui :
  tab env k ui =
    match uploaded_user_file ui with
    | Some f =>
        upload env k f;;
        when (generate_clicked ui) (generate env k);;
        expander env k (save_clicked ui)
    | None => mret tt
    end.
Proof. by destruct k. Qed.

(** Putting in again the file the session already holds changes
    nothing in the session. *)
Lemma upload_settled k f b w :
  pydub_mp3 env f = Some b →
  stored_bytes k (session_state w) = Mp3 b →
  stored_md5 k (session_state w) = md5_hexdigest env b →
  ∃ w1, upload env k f w = (Ok tt, w1) ∧ session_state w1 = session_state w.
Proof.
  intros Hconv Hb Hh. destruct w as [s q r p o]. destruct s. simpl in *.
  destruct k; simpl in *; subst;
    unfold audio_upload, video_upload, convert_user_file, md5; rewrite Hconv; run;
    rewrite bool_decide_false by (intros Hne; by apply Hne); simpl;
    eexists; (split; [reflexivity|]); reflexivity.
Qed.

(** An upload raises only before it wrote anything. *)
Lemma upload_raise_keeps_session k f w e w' :
  upload env k f w = (Raise e, w') → session_state w' = session_state w.
Proof.
  destruct k; simpl; unfold audio_upload, video_upload, convert_user_file, md5;
    destruct (pydub_mp3 env f); run; try case_bool_decide; simpl;
    intros [= _ <-]; done.
Qed.

Lemma expander_keeps_session k b : keeps session_state (expander env k b).
Proof.
  pose proof (save_keeps_session env) as Hsave.
  pose proof (Hsave Audio). pose proof (Hsave Video).
  destruct k; simpl in *; unfold audio_expander, video_expander; frame.
Qed.

Lemma expander_idle k w :
  ∃ w1, expander env k false w = (Ok tt, w1) ∧ session_state w1 = session_state w.
Proof.
  destruct k; simpl; unfold audio_expander, video_expander; run;
    case_bool_decide; simpl; eauto.
Qed.

Lemma settled_ext k ui s s' :
  stored_bytes k s' = stored_bytes k s →
  stored_md5 k s' = stored_md5 k s →
  settled env k ui s → settled env k ui s'.
Proof.
  intros Hb Hh. unfold settled. destruct (uploaded_user_file ui); [|done].
  intros (b & ? & ? & ?). exists b. by rewrite Hb, Hh.
Qed.

(** A tab in which nothing was done runs through and leaves the session. *)
Lemma tab_quiet k ui w :
  quiet env k ui (session_state w) →
  ∃ w1, tab env k ui w = (Ok tt, w1) ∧ session_state w1 = session_state w.
Proof.
  intros [Hset [Hgen Hsave]]. rewrite tab_unfold. unfold settled in Hset.
  destruct (uploaded_user_file ui) as [f|]; [|by exists w].
  destruct Hset as (b & Hconv & Hb & Hh).
  destruct (upload_settled k f b w Hconv Hb Hh) as (w1 & Hup & Hs1).
  rewrite (bind_ok _ _ _ _ _ Hup), Hgen, Hsave. simpl.
  destruct (expander_idle k w1) as (w2 & Hex & Hs2).
  exists w2. split; [|congruence].
  unfold mbind, App_bind, bind, ret. simpl. exact Hex.
Qed.

(** A tab in which one thing was done: when it raises, the session is
    as before. *)
Lemma tab_acted_raise k ui w e w' :
  acted env k ui (session_state w) →
  tab env k ui w = (Raise e, w') →
  session_state w' = session_state w.
Proof.
  intros Hact. rewrite tab_unfold.
  destruct (uploaded_user_file ui) as [f|] eqn:Hf; [|discriminate].
  destruct Hact as [[Hgen Hsave] | [Hset Hone]].
  - (* a file was put in *)
    rewrite Hgen, Hsave. intros H.
    apply bind_raise_inv in H as [H | ([] & w1 & _ & H)].
    { by eapply upload_raise_keeps_session. }
    destruct (expander_idle k w1) as (w2 & Hex & _).
    unfold when, mbind, App_bind, bind, ret in H. simpl in H.
    rewrite Hex in H. discriminate.
  - (* a button was pressed *)
    unfold settled in Hset. rewrite Hf in Hset.
    destruct Hset as (b & Hconv & Hb & Hh).
    destruct (upload_settled k f b w Hconv Hb Hh) as (w1 & Hup & Hs1).
    rewrite (bind_ok _ _ _ _ _ Hup). rewrite <- Hs1. intros H.
    apply bind_raise_inv in H as [H | ([] & w2 & Hg & H)].
    + destruct (generate_clicked ui); [|discriminate].
      by eapply generate_raise_keeps_session.
    + destruct (generate_clicked ui); simpl in *.
      * rewrite Hone in H. destruct (expander_idle k w2) as (w3 & Hex & _).
        rewrite Hex in H. discriminate.
      * injection Hg as <-.
        pose proof (expander_keeps_session k (save_clicked ui) w1) as Hk.
        unfold after in Hk. by rewrite H in Hk.
Qed.

Lemma kind_state_session k w w' :
  session_state w' = session_state w → kind_state k w' = kind_state k w.
Proof. intros H. unfold kind_state. by rewrite H. Qed.

Lemma quiet_after_other_tab k ui ui' w w1 r :
  tab env (other k) ui' w = (r, w1) →
  quiet env k ui (session_state w) → quiet env k ui (session_state w1).
Proof.
  intros Hrun [Hset Hidle]. split; [|done].
  pose proof (tab_keeps_other_kind env (other k) ui' w) as Hk.
  unfold after in Hk. rewrite Hrun in Hk. simpl in Hk.
  replace (other (other k)) with k in Hk by by destruct k.
  unfold kind_state in Hk. injection Hk as Hb Hh _.
  by eapply settled_ext.
Qed.

(** When a run of the script in which the user did one thing raises
    (the check of the collection, a conversion, a transcription, a
    summarisation, an embedding, a store call, ...), the session is
    the one before the run. *)
Lemma main_raise_keeps_session ui w e w' :
  one_action env ui (session_state w) →
  main env ui w = (Raise e, w') →
  session_state w' = session_state w.
Proof.
  intros Hone H. unfold main in H.
  apply bind_raise_inv in H as [H | ([] & w1 & H1 & H)]; [discriminate|].
  injection H1 as <-.
  apply bind_raise_inv in H as [H | ([] & w2 & H2 & H)]; [discriminate|].
  injection H2 as <-.
  match type of H with (_ ≫= _) ?w0 = _ => set (w2 := w0) in * end.
  assert (Hs2 : session_state w2 = session_state w) by reflexivity.
  rewrite <- Hs2 in *. clearbody w2. clear Hs2.
  apply bind_raise_inv in H as [H | ([] & w3 & H3 & H)].
  { pose proof (keeps_check_if_collection_exists env (λ s, s) w2) as Hk.
    unfold after in Hk. by rewrite H in Hk. }
  assert (Hs3 : session_state w3 = session_state w2).
  { pose proof (keeps_check_if_collection_exists env (λ s, s) w2) as Hk.
    unfold after in Hk. by rewrite H3 in Hk. }
  rewrite <- Hs3 in *. clear H3 Hs3.
  assert (Hsearch : ∀ w4, session_state w4 = session_state w3 →
            search_tab env (query_input ui) (search_clicked ui) w4 = (Raise e, w') →
            session_state w' = session_state w3).
  { intros w4 Hs4 H4.
    pose proof (keeps_search_tab env (λ s, s) (query_input ui) (search_clicked ui) w4)
      as Hk.
    unfold after in Hk. rewrite H4 in Hk. simpl in Hk. congruence. }
  apply bind_raise_inv in H as [H | ([] & w4 & H4 & H)].
  - (* the audio tab raised *)
    destruct Hone as [(Ha & _) | [([Ha Hi] & _) | ([Ha Hi] & _)]];
      apply (tab_acted_raise Audio _ _ _ _) in H; auto;
      right; (split; [done|]); destruct Hi as [-> _]; done.
  - apply bind_raise_inv in H as [H | ([] & w5 & H5 & H)].
    + (* the video tab raised: nothing was done in the audio tab *)
      destruct Hone as [(_ & Hv & _) | [(Ha & Hv & _) | (Ha & Hv)]].
      * pose proof (quiet_after_other_tab Video _ _ _ _ _ H4 Hv) as Hv4.
        destruct (tab_quiet Video _ _ Hv4) as (w6 & Hok & _).
        simpl in Hok. rewrite Hok in H. discriminate.
      * destruct (tab_quiet Audio _ _ Ha) as (w6 & Hok & Hs6).
        simpl in Hok. rewrite Hok in H4. injection H4 as <-.
        apply (tab_acted_raise Video _ _ _ _) in H; [congruence|].
        destruct Hv as [Hi | [Hset Hone]]; [by left | right].
        split; [|done]. eapply settled_ext; [| |exact Hset]; by rewrite Hs6.
      * pose proof (quiet_after_other_tab Video _ _ _ _ _ H4 Hv) as Hv4.
        destruct (tab_quiet Video _ _ Hv4) as (w6 & Hok & _).
        simpl in Hok. rewrite Hok in H. discriminate.
    + (* the search raised *)
      destruct Hone as [(_ & _ & Hs) | [(_ & _ & Hs) | (Ha & Hv)]].
      * unfold search_tab in H. rewrite Hs in H. discriminate.
      * unfold search_tab in H. rewrite Hs in H. discriminate.
      * destruct (tab_quiet Audio _ _ Ha) as (w6 & Hok & Hs6).
        simpl in Hok. rewrite Hok in H4. injection H4 as <-.
        pose proof (quiet_after_other_tab Video _ _ _ _ _ Hok Hv) as Hv4.
        destruct (tab_quiet Video _ _ Hv4) as (w7 & Hok7 & Hs7).
        simpl in Hok7. rewrite Hok7 in H5. injection H5 as <-.
        apply (Hsearch w7); [congruence | done].
Qed.

Lemma one_action_ext ui s s' :
  (∀ k, stored_bytes k s' = stored_bytes k s) →
  (∀ k, stored_md5 k s' = stored_md5 k s) →
  one_action env ui s → one_action env ui s'.
Proof.
  intros Hb Hh.
  assert (Hset : ∀ k u, settled env k u s → settled env k u s')
    by (intros k u; by apply settled_ext).
  assert (Hquiet : ∀ k u, quiet env k u s → quiet env k u s')
    by (intros k u [? ?]; split; auto).
  assert (Hacted : ∀ k u, acted env k u s → acted env k u s')
    by (intros k u [?|[? ?]]; [by left | right; split; auto]).
  intros [(? & ? & ?) | [(? & ? & ?) | (? & ?)]].
  - left. auto.
  - right. left. auto.
  - right. right. auto.
Qed.

(** X21. The same for the script with its prompt for the API key (the
    prompt writes the key, and nothing of either media kind): when a
    whole run of the script raises, in the check of the collection, a
    conversion, a transcription, a summarisation, an embedding or a
    store call, and the user did one thing before that run (put one
    file in, or pressed one button under files already processed),
    the bytes, fingerprint and summary of both media kinds are those
    before the run. *)
Lemma app_raise_keeps_media ui w e w' :
  one_action env ui (session_state w) →
  app env ui w = (Raise e, w') →
  ∀ k, kind_state k w' = kind_state k w.
Proof.
  intros Hone H k. unfold app in H. revert H. run.
  case_bool_decide as Hkey; simpl.
  - case_bool_decide as Hkey'; simpl; [discriminate|]. intros H.
    apply main_raise_keeps_session in H.
    + unfold kind_state. rewrite H. by destruct k.
    + eapply one_action_ext; [| |exact Hone]; by intros [].
  - intros H. apply main_raise_keeps_session in H; [|done].
    by apply kind_state_session.
Qed.

(** *** Invariants along a run *)

Lemma maintains_bind {A B} (I : World → Prop) (m : App A) (k : A → App B) :
  maintains I m → (∀ a, maintains I (k a)) → maintains I (m ≫= k).
Proof.
  intros Hm Hk w HI. specialize (Hm w HI).
  unfold after, mbind, App_bind, bind in *.
  destruct (m w) as [[a|e] w1]; simpl in *; [|done]. by apply Hk.
Qed.

Lemma maintains_keeps {A X} (part : World → X) (I : X → Prop) (m : App A) :
  keeps part m → maintains (λ w, I (part w)) m.
Proof. intros Hm w HI. by rewrite Hm. Qed.

Lemma maintains_if {A} (I : World → Prop) (b : bool) (m1 m2 : App A) :
  maintains I m1 → maintains I m2 → maintains I (if b then m1 else m2).
Proof. by destruct b. Qed.

(** X22. A whole run of the script leaves the bytes, fingerprint and
    summary of a media kind in whose tab nothing was done (its file is
    the one already processed, none of its buttons was pressed),
    whatever was done in the other tab or in the search tab and
    whatever failed. *)
Lemma app_keeps_quiet_kind k ui w :
  quiet env k (widgets_of k ui) (session_state w) →
  kind_state k (after (app env ui) w) = kind_state k w.
Proof.
  intros Hq.
  set (field := λ s, (stored_bytes k s, stored_md5 k s, stored_summary k s)).
  set (I := λ x : Blob * string * string, x = kind_state k w).
  assert (Hkeep : ∀ A (m : App A), keeps (kind_state k) m →
            maintains (λ w0, kind_state k w0 = kind_state k w) m)
    by (intros A m; apply (maintains_keeps (kind_state k) I)).
  assert (Htab : ∀ k', maintains (λ w0, kind_state k w0 = kind_state k w)
                         (tab env k' (widgets_of k' ui))).
  { intros k' w0 Hw0. destruct (decide (k' = k)) as [->|Hne].
    - assert (Hq0 : quiet env k (widgets_of k ui) (session_state w0)).
      { destruct Hq as [Hset Hidle]. split; [|done]. unfold kind_state in Hw0.
        injection Hw0 as Hb Hh _. by eapply settled_ext. }
      destruct (tab_quiet k _ _ Hq0) as (w1 & Hrun & Hs1).
      unfold after. rewrite Hrun. simpl. rewrite <- Hw0.
      by apply kind_state_session.
    - rewrite <- Hw0. replace k with (other k') by (destruct k, k'; done).
      apply tab_keeps_other_kind. }
  assert (Hmain : maintains (λ w0, kind_state k w0 = kind_state k w) (main env ui)).
  { unfold main.
    apply maintains_bind; [apply Hkeep; by intros w0 | intros _].
    apply maintains_bind; [apply Hkeep; by intros w0 | intros _].
    apply maintains_bind;
      [apply Hkeep, (keeps_check_if_collection_exists env field) | intros _].
    apply maintains_bind; [apply (Htab Audio) | intros _].
    apply maintains_bind; [apply (Htab Video) | intros _].
    apply Hkeep, (keeps_search_tab env field). }
  assert (Happ : maintains (λ w0, kind_state k w0 = kind_state k w) (app env ui)).
  { unfold app. apply maintains_bind; [apply Hkeep; by intros w0|]. intros s.
    apply maintains_if; [|done].
    apply maintains_bind; [apply Hkeep; by intros w0 | intros _].
    apply maintains_bind; [apply Hkeep; intros w0; by destruct k | intros _].
    apply maintains_bind; [apply Hkeep; by intros w0 | intros s'].
    apply maintains_if; [|done]. apply Hkeep. by intros w0. }
  by apply Happ.
Qed.

(** *** The collection stays one the program made *)

Lemma program_store_quiet {A} (m : App A) :
  keeps qdrant m → maintains program_store m.
Proof.
  intros Hm. apply (maintains_keeps qdrant
    (λ q, ∀ c, q !! COLLECTION_NAME = Some c → program_collection c) m Hm).
Qed.

Lemma program_store_check : maintains program_store (check_if_collection_exists env).
Proof.
  intros w Hw. unfold after, check_if_collection_exists,
    client_collection_exists, client_create_collection, qdrant_request. run.
  destruct (qdrant_reachable env (requests w)); simpl; [|done].
  destruct (qdrant w !! COLLECTION_NAME) as [c|] eqn:Hc.
  - rewrite bool_decide_true by eauto. done.
  - rewrite bool_decide_false by (intros [? ?]; discriminate). simpl.
    destruct (qdrant_reachable env _); simpl; [|done]. rewrite Hc. simpl.
    intros c. simpl. rewrite lookup_insert_eq. intros [= <-].
    split; [done | apply empty_collection_ids | apply empty_collection_summaries].
Qed.

Lemma program_store_add_note t : maintains program_store (add_note_to_qdrant env t).
Proof.
  intros w Hw. unfold after, add_note_to_qdrant, client_count, client_upsert,
    get_embedding, qdrant_request. run.
  destruct (qdrant_reachable env (requests w)); simpl; [|done].
  destruct (qdrant w !! COLLECTION_NAME) as [c|] eqn:Hc; simpl; [|done].
  destruct (openai_embedding env _ t EMBEDDING_DIM) as [v|]; simpl; [|done].
  destruct (qdrant_reachable env _); simpl; [|done]. rewrite Hc.
  unfold store_point. simpl. case_decide; simpl; [|done].
  intros c'. simpl. rewrite lookup_insert_eq. intros [= <-].
  destruct (Hw c Hc) as [Hcfg Hids Hsum].
  split; [done | by apply (with_point_ids_one_to_count c v t)
               | by apply (with_point_summaries c _ v t)].
Qed.

Lemma keeps_qdrant_generate k : keeps qdrant (generate env k).
Proof.
  destruct k; simpl;
    unfold audio_generate, video_generate, transcribe_audio, summary, BytesIO;
    frame.
Qed.

Lemma keeps_qdrant_upload k f : keeps qdrant (upload env k f).
Proof.
  destruct k; simpl; unfold audio_upload, video_upload, convert_user_file, md5;
    frame.
Qed.

Lemma keeps_qdrant_search_tab q b : keeps qdrant (search_tab env q b).
Proof.
  unfold search_tab, list_notes_from_qdrant, client_scroll, client_search,
    get_embedding, qdrant_request, show_note.
  frame.
Qed.

Lemma program_store_tab k ui : maintains program_store (tab env k ui).
Proof.
  rewrite tab_unfold. destruct (uploaded_user_file ui) as [f|]; [|by intros w].
  apply maintains_bind; [apply program_store_quiet, keeps_qdrant_upload | intros _].
  apply maintains_bind.
  { apply program_store_quiet, keeps_when, keeps_qdrant_generate. }
  intros _. destruct k; simpl; unfold audio_expander, video_expander.
  - apply maintains_bind; [apply program_store_quiet; by intros w | intros s].
    destruct (bool_decide _); simpl; [|by intros w].
    apply maintains_bind; [apply program_store_quiet; by intros w | intros s'].
    apply maintains_bind; [apply program_store_quiet; by intros w | intros _].
    destruct (save_clicked ui); simpl; [|by intros w]. unfold audio_save.
    apply maintains_bind; [apply program_store_quiet; by intros w | intros s''].
    apply maintains_bind; [apply program_store_add_note | intros _].
    apply program_store_quiet. by intros w.
  - apply maintains_bind; [apply program_store_quiet; by intros w | intros s].
    destruct (bool_decide _); simpl; [|by intros w].
    apply maintains_bind; [apply program_store_quiet; by intros w | intros s'].
    apply maintains_bind; [apply program_store_quiet; by intros w | intros _].
    destruct (save_clicked ui); simpl; [|by intros w]. unfold video_save.
    apply maintains_bind; [apply program_store_quiet; by intros w | intros s''].
    apply maintains_bind; [apply program_store_add_note | intros _].
    apply program_store_quiet. by intros w.
Qed.

(** Every run of the script, on any services, returning or raising,
    leaves a store without the collection or with one the program
    made: created with [EMBEDDING_DIM] and cosine, ids 1..count, a
    summary in every point.  The empty store is such a store. *)
Lemma program_store_app ui : maintains program_store (app env ui).
Proof.
  assert (Hmain : maintains program_store (main env ui)).
  { unfold main.
    apply maintains_bind; [apply program_store_quiet; by intros w | intros _].
    apply maintains_bind; [apply program_store_quiet; by intros w | intros _].
    apply maintains_bind; [apply program_store_check | intros _].
    apply maintains_bind; [apply (program_store_tab Audio) | intros _].
    apply maintains_bind; [apply (program_store_tab Video) | intros _].
    apply program_store_quiet, keeps_qdrant_search_tab. }
  unfold app.
  apply maintains_bind; [apply program_store_quiet; by intros w | intros s].
  apply maintains_if; [|done].
  apply maintains_bind; [apply program_store_quiet; by intros w | intros _].
  apply maintains_bind; [apply program_store_quiet; by intros w | intros _].
  apply maintains_bind; [apply program_store_quiet; by intros w | intros s'].
  apply maintains_if; [|done]. apply program_store_quiet. by intros w.
Qed.

Lemma program_store_empty w : qdrant w = ∅ → program_store w.
Proof. intros Hq c. by rewrite Hq, lookup_empty. Qed.

End Runs.

(** ** The theorems at work on concrete runs *)

Lemma demo_always_up : ∀ h, qdrant_reachable demo h = true.
Proof. intros h. reflexivity. Defined.

Lemma demo_always_embeds :
  ∀ h t d, ∃ v, openai_embedding demo h t d = Some v ∧ length v = d.
Proof. intros h t d. eexists. split; [reflexivity | apply length_replicate]. Defined.

Lemma one_note_summaries : summaries_present one_note.
Proof. apply with_point_summaries, empty_collection_summaries. Defined.

(** Uploading file B over the summarised file A empties the summary. *)
Lemma upload_resets_summary_witness :
  pydub_mp3 demo file_B = Some [Byte.x42] ∧
  stored_summary Audio
    (session_state (after (upload demo Audio file_B) summarised_world)) = "".
Proof.
  split; [reflexivity|].
  destruct (upload_resets_summary_on_new_fingerprint demo Audio file_B [Byte.x42]
              summarised_world eq_refl) as (w' & Hrun & _ & _ & Hreset & _).
  unfold after. rewrite Hrun. apply Hreset. discriminate.
Defined.

(** Saving "S1" into the empty collection stores it under id 1. *)
Lemma add_note_witness :
  ∃ w',
    add_note_to_qdrant demo "S1" summarised_world = (Ok tt, w') ∧
    qdrant w' !! COLLECTION_NAME = Some one_note ∧
    session_state w' = session_state summarised_world.
Proof.
  destruct (add_note_uses_count_plus_one demo "S1" summarised_world
              (empty_collection program_config) (replicate EMBEDDING_DIM (2 # 1)))
    as (w' & Hrun & _ & Hq & Hs).
  - reflexivity.
  - reflexivity.
  - reflexivity.
  - reflexivity.
  - apply length_replicate.
  - exists w'. split; [exact Hrun|]. split; [|exact Hs].
    rewrite Hq. apply lookup_insert_eq.
Defined.

(** Two checks in a row on a store without the collection. *)
Lemma check_if_collection_exists_witness :
  ∃ w1 w2 c,
    check_if_collection_exists demo fresh_world = (Ok tt, w1) ∧
    check_if_collection_exists demo w1 = (Ok tt, w2) ∧
    qdrant w1 !! COLLECTION_NAME = Some c ∧
    qdrant w2 = qdrant w1.
Proof.
  destruct (check_if_collection_exists_idempotent demo fresh_world demo_always_up)
    as (_ & _ & (w1 & w2 & c & H1 & H2 & Hc & Hq & _)).
  exists w1, w2, c. auto.
Defined.

(** Searching "S1" after it was saved. *)
Lemma search_witness :
  ∃ notes w',
    list_notes_from_qdrant demo (Some "S1") saved_world = (Ok notes, w') ∧
    length notes ≤ 10 ∧
    StronglySorted note_score_desc notes.
Proof.
  destruct (search_returns_nearest_by_cosine demo "S1" saved_world one_note
              (replicate EMBEDDING_DIM (2 # 1)))
    as (notes & w' & ranked & Hrun & _ & _ & _ & _ & Hlen & _ & Hsorted).
  - discriminate.
  - reflexivity.
  - reflexivity.
  - exact one_note_summaries.
  - reflexivity.
  - apply length_replicate.
  - reflexivity.
  - exists notes, w'. auto.
Defined.

(** Generate with the transcription service down. *)
Lemma failed_action_witness :
  generate offline Audio summarised_world =
    (Raise TranscriptionError, after (generate offline Audio) summarised_world) ∧
  session_state (after (generate offline Audio) summarised_world) =
    session_state summarised_world.
Proof.
  assert (Hrun : generate offline Audio summarised_world =
            (Raise TranscriptionError, after (generate offline Audio) summarised_world))
    by reflexivity.
  split; [exact Hrun|].
  apply (failed_action_keeps_session offline Audio summarised_world _
           TranscriptionError (or_introl Hrun)).
Defined.

(** Upload, generate and save in the audio tab; the video state stays. *)
Lemma tabs_witness :
  kind_state Video
    (run_tabs demo
       [(Audio, upload_only file_A); (Audio, press_generate file_A);
        (Audio, press_save file_A)] ready_world) =
  kind_state Video ready_world.
Proof.
  apply (tabs_of_one_kind_keep_the_other demo Audio). repeat constructor.
Defined.

(** Save pressed twice on "S1": notes 1 and 2. *)
Lemma save_twice_witness :
  ∃ w1 w2 c2,
    save demo Audio summarised_world = (Ok tt, w1) ∧
    save demo Audio w1 = (Ok tt, w2) ∧
    qdrant w2 !! COLLECTION_NAME = Some c2 ∧
    size (points c2) = 2.
Proof.
  destruct (save_twice_stores_two_notes demo Audio summarised_world
              (empty_collection program_config))
    as (w1 & w2 & c1 & c2 & v1 & v2 & H1 & H2 & _ & _ & Hc2 & Hn2 & _).
  - reflexivity.
  - reflexivity.
  - apply ids_one_to_count_within, empty_collection_ids.
  - exact demo_always_up.
  - exact demo_always_embeds.
  - exists w1, w2, c2. auto.
Defined.

(** Search pressed on an empty box. *)
Lemma falsy_query_witness :
  ∃ res w',
    list_notes_from_qdrant demo (Some "") saved_world = (res, w') ∧
    requests w' = requests saved_world ++ [Scroll COLLECTION_NAME 10].
Proof.
  destruct (falsy_query_lists_without_embedding demo (Some "") saved_world eq_refl)
    as ((res & w' & Hrun & Hreq & _) & _).
  exists res, w'. auto.
Defined.

(** Listing the one saved note. *)
Lemma listing_witness :
  ∃ notes w',
    list_notes_from_qdrant demo None saved_world = (Ok notes, w') ∧
    length notes ≤ 10 ∧ Forall (λ n, score n = None) notes.
Proof.
  destruct (listing_at_most_ten_unscored demo saved_world) as [Hbound Hruns].
  destruct (Hruns one_note) as (notes & w' & Hrun & _).
  - reflexivity.
  - reflexivity.
  - exact one_note_summaries.
  - exists notes, w'. split; [exact Hrun|]. exact (Hbound notes w' Hrun).
Defined.

(** The first check of a fresh store creates the collection with
    [EMBEDDING_DIM]. *)
Lemma shared_dimension_witness :
  requests (after (check_if_collection_exists demo) fresh_world) =
    [CollectionExists COLLECTION_NAME;
     CreateCollection COLLECTION_NAME {| size_ := 3072; distance := COSINE |}].
Proof.
  destruct (embedding_and_collection_share_dimension demo) as (_ & _ & _ & Hcreate).
  apply (Hcreate fresh_world); reflexivity.
Defined.

(** *** The scenario of the specification, run *)

Example generate_gives_S1 :
  stored_summary Audio (session_state after_generate) = "S1".
Proof. reflexivity. Qed.

Example save_stores_note_1 : payloads after_save = [(1, [("summary", "S1")])].
Proof. vm_compute. reflexivity. Qed.

Example upload_B_resets :
  stored_summary Audio (session_state after_upload_B) = "" ∧
  stored_md5 Audio (session_state after_upload_B) = "B" ∧
  payloads after_upload_B = [(1, [("summary", "S1")])].
Proof. vm_compute. auto. Qed.

Example search_S1_finds_note_1 :
  (list_notes_from_qdrant demo (Some "S1") after_upload_B).1 =
    Ok [ {| text := "S1"; score := Some (4 # 1) |} ].
Proof. vm_compute. reflexivity. Qed.

Example listing_has_no_scores :
  (list_notes_from_qdrant demo None after_upload_B).1 =
    Ok [ {| text := "S1"; score := None |} ].
Proof. vm_compute. reflexivity. Qed.

Example offline_generate_keeps_summary :
  (generate offline Audio after_generate).1 = Raise TranscriptionError ∧
  session_state (after (generate offline Audio) after_generate) =
    session_state after_generate.
Proof. vm_compute. auto. Qed.

(** The bound on the ids in [save_twice_stores_two_notes] is needed:
    on a collection that was not filled by this program and holds one
    point under id 2, both saves go to id 2 (the count is 1 each time)
    and one point is left. *)
Example save_twice_on_foreign_ids :
  payloads (after (save demo Audio) (after (save demo Audio) foreign_world)) =
    [(2, [("summary", "S1")])].
Proof. vm_compute. reflexivity. Qed.

(** ** Further properties: configuration, clients, session keys *)

Lemma take_secret_lookup key secrets env k :
  take_secret key secrets env !! k =
    if decide (k = key) then configured env secrets key else env !! k.
Proof.
  unfold take_secret, configured. destruct (secrets !! key) as [v|] eqn:Hs.
  - rewrite lookup_insert. destruct (decide (k = key)) as [->|Hne].
    + by rewrite decide_True.
    + by rewrite decide_False by congruence.
  - destruct (decide (k = key)) as [->|]; done.
Qed.

Lemma load_env_lookup dotenv secrets k :
  load_env dotenv secrets !! k =
    if decide (k = "QDRANT_URL" ∨ k = "QDRANT_API")
    then configured dotenv secrets k else dotenv !! k.
Proof.
  unfold load_env. rewrite !take_secret_lookup.
  destruct (decide (k = "QDRANT_API")) as [->|Ha].
  - rewrite decide_True by auto. unfold configured at 1.
    rewrite take_secret_lookup. rewrite decide_False by done.
    unfold configured. done.
  - destruct (decide (k = "QDRANT_URL")) as [->|Hu].
    + by rewrite decide_True by auto.
    + rewrite decide_False by (intros [?|?]; done). done.
Qed.

(** X1. The Qdrant client is built from [env] after lines 15-20: for
    the URL and for the API key the deployment secret wins over the
    value of [.env]; the client is built exactly when both have a value
    in one of the two places; without a URL the construction raises
    [KeyError] on "QDRANT_URL", with a URL and without a key on
    "QDRANT_API"; and every other key of [env] is the one of [.env]. *)
Theorem qdrant_client_reads_secrets_first (dotenv secrets : gmap string string) :
  (∀ c, new_qdrant_client (load_env dotenv secrets) = Ok c ↔
        configured dotenv secrets "QDRANT_URL" = Some (client_url c) ∧
        configured dotenv secrets "QDRANT_API" = Some (client_api_key c)) ∧
  (configured dotenv secrets "QDRANT_URL" = None →
     new_qdrant_client (load_env dotenv secrets) = Raise (KeyError "QDRANT_URL")) ∧
  (is_Some (configured dotenv secrets "QDRANT_URL") →
   configured dotenv secrets "QDRANT_API" = None →
     new_qdrant_client (load_env dotenv secrets) = Raise (KeyError "QDRANT_API")) ∧
  (∀ k, k ≠ "QDRANT_URL" → k ≠ "QDRANT_API" →
     load_env dotenv secrets !! k = dotenv !! k).
Proof.
  assert (Hurl : load_env dotenv secrets !! "QDRANT_URL" =
                 configured dotenv secrets "QDRANT_URL")
    by (rewrite load_env_lookup; by rewrite decide_True by auto).
  assert (Hapi : load_env dotenv secrets !! "QDRANT_API" =
                 configured dotenv secrets "QDRANT_API")
    by (rewrite load_env_lookup; by rewrite decide_True by auto).
  unfold new_qdrant_client, lookup_key. rewrite Hurl, Hapi.
  split; [|split; [|split]].
  - intros [url key]. simpl.
    destruct (configured dotenv secrets "QDRANT_URL") as [u|];
      destruct (configured dotenv secrets "QDRANT_API") as [a|].
    + split; [intros [= -> ->]; done | intros [[= ->] [= ->]]; done].
    + split; [discriminate | intros [_ Ha]; discriminate].
    + split; [discriminate | intros [Hu _]; discriminate].
    + split; [discriminate | intros [Hu _]; discriminate].
  - by intros ->.
  - intros [u ->] ->. done.
  - intros k Hu Ha. rewrite load_env_lookup.
    by rewrite decide_False by (intros [?|?]; done).
Qed.

Lemma openai_clients_served_cached callers c :
  openai_clients_served callers (Some c) = replicate (length callers) (Ok c).
Proof. induction callers as [|s callers IH]; simpl; [done | by rewrite IH]. Qed.

(** X2. The OpenAI client is cached for the whole process by a
    function without arguments: it is built once, with the API key of
    the session that calls first, and every later caller, whatever
    key its own session holds, is handed that client. *)
Theorem openai_client_keeps_first_key (first : Session) (later : list Session) :
  openai_clients_served (first :: later) None =
    replicate (S (length later)) (Ok {| openai_api_key := api_key first |}).
Proof. simpl. by rewrite openai_clients_served_cached. Qed.

Lemma init_key_lookup key d k :
  init_key key d !! k =
    match d !! k with
    | Some v => Some v
    | None => if decide (k = key) then Some (PyStr "") else None
    end.
Proof.
  unfold init_key. destruct (d !! key) as [v|] eqn:Hd.
  - destruct (d !! k) eqn:Hk; [done|]. destruct (decide (k = key)); [|done].
    congruence.
  - rewrite lookup_insert. destruct (decide (k = key)) as [->|Hne].
    + rewrite decide_True by done. by rewrite Hd.
    + rewrite decide_False by congruence. by destruct (d !! k).
Qed.

Lemma init_session_state_lookup d k :
  init_session_state d !! k =
    match d !! k with
    | Some v => Some v
    | None => if decide (k ∈ session_keys) then Some (PyStr "") else None
    end.
Proof.
  unfold init_session_state. rewrite !init_key_lookup.
  destruct (d !! k) as [v|]; [done|]. unfold session_keys.
  repeat (destruct (decide (k = _)) as [->|?];
            [by rewrite decide_True by (repeat constructor)|]).
  rewrite decide_False; [done|]. intros Hin.
  repeat (apply elem_of_cons in Hin as [?|Hin]; [done|]).
  by apply elem_of_nil in Hin.
Qed.

(** X3. The initialisation of the session keys (lines 173-189), run
    again at every rerun of the script, never overwrites: a key that
    is in the session keeps its value, the six keys of the script that
    are missing get the empty string, no other key appears, and
    running it twice is running it once. *)
Theorem init_session_state_keeps_values (d : gmap string PyVal) :
  (∀ k, init_session_state d !! k =
          match d !! k with
          | Some v => Some v
          | None => if decide (k ∈ session_keys) then Some (PyStr "") else None
          end) ∧
  init_session_state (init_session_state d) = init_session_state d.
Proof.
  split; [apply init_session_state_lookup|].
  apply map_eq. intros k. rewrite !init_session_state_lookup.
  destruct (d !! k); [done|]. by destruct (decide (k ∈ session_keys)).
Qed.

(** ** Further properties: runs of the script *)

Section MoreRuns.

Context (env : Services).

Lemma after_bind {A B} (m : App A) (k : A → App B) w :
  after (m ≫= k) w =
    match m w with
    | (Ok a, w1) => after (k a) w1
    | (Raise e, w1) => w1
    end.
Proof. unfold after, mbind, App_bind, bind. by destruct (m w) as [[a|e] w1]. Qed.

(** What follows a computation and keeps a part of the world does not
    show in that part. *)
Lemma after_bind_quiet {A B X} (part : World → X) (m : App A) (k : A → App B) w :
  (∀ a, keeps part (k a)) → part (after (m ≫= k) w) = part (after m w).
Proof.
  intros Hk. rewrite after_bind. unfold after at 2.
  destruct (m w) as [[a|e] w1]; simpl; [apply Hk | done].
Qed.

(** The script with its prompt for the key, case by case. *)
Lemma app_with_key ui w :
  api_key (session_state w) ≠ "" → app env ui w = main env ui w.
Proof.
  intros Hk. unfold app. unfold mbind at 1, App_bind, bind, get_session.
  rewrite bool_decide_false by done. reflexivity.
Qed.

Lemma set_api_key_same s : set_api_key (api_key s) s = s.
Proof. by destruct s. Qed.

Lemma app_without_key ui w :
  api_key (session_state w) = "" →
  app env ui w =
    if bool_decide (api_key_input ui = "") then
      (Ok tt,
       after (modify_session (set_api_key (api_key_input ui)))
         (after (render (StInfo "Enter your OpenAI API key")) w))
    else
      main env ui
        (after (modify_session (set_api_key (api_key_input ui)))
           (after (render (StInfo "Enter your OpenAI API key")) w)).
Proof.
  intros Hk. unfold app. unfold mbind at 1, App_bind, bind, get_session.
  rewrite bool_decide_true by done.
  case_bool_decide as Hin; unfold after; run;
    [rewrite bool_decide_true by done | rewrite bool_decide_false by done];
    reflexivity.
Qed.

Lemma main_keeps_api_key ui : keeps (λ w, api_key (session_state w)) (main env ui).
Proof.
  unfold main.
  apply keeps_bind; [by intros w | intros _].
  apply keeps_bind; [by intros w | intros _].
  apply keeps_bind; [apply (keeps_check_if_collection_exists env api_key) | intros _].
  apply keeps_bind; [by apply (keeps_audio_tab env api_key) | intros _].
  apply keeps_bind; [by apply (keeps_video_tab env api_key) | intros _].
  apply (keeps_search_tab env api_key).
Qed.

(** X4. Nothing is asked of a remote service on behalf of a session
    without an API key.  A run on a session without a key and with an
    empty key box returns at once: it sends no request and leaves the
    store and the session as they are.  And after any run that sent a
    request, the session holds a non-empty key. *)
Theorem no_request_without_api_key (ui : Widgets) (w : World) :
  (api_key (session_state w) = "" → api_key_input ui = "" →
     ∃ w', app env ui w = (Ok tt, w') ∧
           requests w' = requests w ∧
           qdrant w' = qdrant w ∧
           session_state w' = session_state w) ∧
  (requests (after (app env ui) w) ≠ requests w →
     api_key (session_state (after (app env ui) w)) ≠ "").
Proof.
  split.
  - intros Hk Hin. rewrite (app_without_key ui w Hk), bool_decide_true by done.
    eexists. split; [reflexivity|]. simpl. rewrite Hin, <- Hk.
    by rewrite set_api_key_same.
  - intros Hsent. destruct (decide (api_key (session_state w) = "")) as [Hk|Hk].
    + revert Hsent. unfold after. rewrite (app_without_key ui w Hk).
      case_bool_decide as Hin; simpl; [done|]. intros _.
      pose proof (main_keeps_api_key ui
        (after (modify_session (set_api_key (api_key_input ui)))
           (after (render (StInfo "Enter your OpenAI API key")) w))) as Hkeep.
      unfold after in Hkeep at 1. rewrite Hkeep. done.
    + unfold after. rewrite (app_with_key ui w Hk).
      pose proof (main_keeps_api_key ui w) as Hkeep. unfold after in Hkeep.
      by rewrite Hkeep.
Qed.

(** X5. An upload raises exactly when the file cannot be converted, and
    then with [UnsupportedMediaError], before anything was written:
    the session, the store and the request log are as before. *)
Theorem upload_fails_only_on_conversion (k : MediaKind) (f : UploadedFile) (w : World) :
  (pydub_mp3 env f = None →
     ∃ w', upload env k f w = (Raise UnsupportedMediaError, w')) ∧
  (∀ e w', upload env k f w = (Raise e, w') →
     pydub_mp3 env f = None ∧ e = UnsupportedMediaError ∧
     session_state w' = session_state w ∧
     qdrant w' = qdrant w ∧
     requests w' = requests w).
Proof.
  split.
  - intros Hconv.
    destruct k; simpl; unfold audio_upload, video_upload, convert_user_file;
      rewrite Hconv; run; eauto.
  - intros e w'.
    destruct k; simpl; unfold audio_upload, video_upload, convert_user_file, md5;
      destruct (pydub_mp3 env f); run; try case_bool_decide; simpl;
      intros [= <- <-]; done.
Qed.

Lemma keeps_requests_upload k f : keeps requests (upload env k f).
Proof.
  destruct k; simpl; unfold audio_upload, video_upload, convert_user_file, md5;
    frame.
Qed.

Lemma keeps_requests_expander_idle k : keeps requests (expander env k false).
Proof. destruct k; simpl; unfold audio_expander, video_expander; frame. Qed.

Lemma tab_idle_keeps_requests k ui : idle ui → keeps requests (tab env k ui).
Proof.
  intros [Hgen Hsave]. rewrite tab_unfold, Hgen, Hsave.
  destruct (uploaded_user_file ui) as [f|]; [|by intros w].
  apply keeps_bind; [apply keeps_requests_upload | intros _].
  apply keeps_bind; [by intros w | intros _].
  apply keeps_requests_expander_idle.
Qed.

Lemma check_requests w :
  requests (after (check_if_collection_exists env) w) =
    requests w ++ [CollectionExists COLLECTION_NAME] ∨
  requests (after (check_if_collection_exists env) w) =
    requests w ++ [CollectionExists COLLECTION_NAME;
                   CreateCollection COLLECTION_NAME program_config].
Proof.
  unfold after, check_if_collection_exists, client_collection_exists,
    client_create_collection, qdrant_request. run.
  destruct (qdrant_reachable env (requests w)); simpl; [|by left].
  destruct (bool_decide _); simpl; [by left|]. right.
  destruct (qdrant_reachable env _); simpl;
    [destruct (qdrant w !! COLLECTION_NAME); simpl|];
    by rewrite <- (assoc_L (++)).
Qed.

(** X6. Nothing is transcribed, summarised, embedded or stored by a run
    in which no button was pressed, such as the run started by
    putting a file in an uploader: all such a run sends is the check
    that the collection exists and, when it does not, its creation. *)
Theorem run_without_buttons_only_checks_collection (ui : Widgets) (w : World) :
  no_buttons ui →
  ∃ new,
    requests (after (app env ui) w) = requests w ++ new ∧
    (new = [] ∨
     new = [CollectionExists COLLECTION_NAME] ∨
     new = [CollectionExists COLLECTION_NAME;
            CreateCollection COLLECTION_NAME
              {| size_ := EMBEDDING_DIM; distance := COSINE |}]).
Proof.
  intros (Ha & Hv & Hs).
  assert (Hcases : ∀ w0, requests w0 = requests w →
    ∃ new, requests (after (main env ui) w0) = requests w ++ new ∧
      (new = [] ∨ new = [CollectionExists COLLECTION_NAME] ∨
       new = [CollectionExists COLLECTION_NAME;
              CreateCollection COLLECTION_NAME
                {| size_ := EMBEDDING_DIM; distance := COSINE |}])).
  { intros w0 Hw0. unfold main.
    rewrite after_bind. simpl. rewrite after_bind. simpl.
    rewrite (after_bind_quiet requests).
    - match goal with |- context [after _ ?w1] =>
        destruct (check_requests w1) as [-> | ->]; simpl; rewrite Hw0; eauto
      end.
    - intros _.
      apply keeps_bind; [by apply (tab_idle_keeps_requests Audio) | intros _].
      apply keeps_bind; [by apply (tab_idle_keeps_requests Video) | intros _].
      unfold search_tab. rewrite Hs. by intros w1. }
  destruct (decide (api_key (session_state w) = "")) as [Hk|Hk].
  - unfold after at 1. rewrite (app_without_key ui w Hk).
    case_bool_decide; simpl.
    + exists []. split; [by rewrite app_nil_r | by left].
    + by apply Hcases.
  - unfold after at 1. rewrite (app_with_key ui w Hk). by apply Hcases.
Qed.

End MoreRuns.

(** ** Further properties: uploads, generation, saving, listing *)

Section MoreActions.

Context (env : Services).

Lemma upload_ok_settles k f w w1 :
  upload env k f w = (Ok tt, w1) →
  ∃ b, pydub_mp3 env f = Some b ∧
       stored_bytes k (session_state w1) = Mp3 b ∧
       stored_md5 k (session_state w1) = md5_hexdigest env b.
Proof.
  destruct k; simpl; unfold audio_upload, video_upload, convert_user_file, md5;
    destruct (pydub_mp3 env f) as [b|]; run; try discriminate;
    case_bool_decide as Hd; simpl; intros [= <-]; exists b; simpl;
    repeat split; try done; by apply dec_stable in Hd.
Qed.

Lemma generate_keeps_upload k :
  keeps (λ w, (stored_bytes k (session_state w), stored_md5 k (session_state w)))
    (generate env k).
Proof.
  pose proof (keeps_transcribe_audio env
    (λ s, (stored_bytes k s, stored_md5 k s))).
  pose proof (keeps_summary env (λ s, (stored_bytes k s, stored_md5 k s))).
  destruct k; simpl in *; unfold audio_generate, video_generate; frame.
Qed.

(** X7. Streamlit runs the script again after every interaction; what
    a tab did in one run survives the next.  After any run of a media
    tab that returned (an upload, a generation, a save), a further run
    with the same file in the uploader and no button pressed returns
    and leaves the session as it is: the stored bytes, the fingerprint
    and the generated summary are not reset. *)
Theorem rerun_keeps_session (k : MediaKind) (ui : TabWidgets) (w w1 : World) :
  tab env k ui w = (Ok tt, w1) →
  ∃ w2, tab env k (released ui) w1 = (Ok tt, w2) ∧
        session_state w2 = session_state w1.
Proof.
  intros Hrun. apply tab_quiet. split; [|done].
  unfold settled. simpl. rewrite tab_unfold in Hrun.
  destruct (uploaded_user_file ui) as [f|]; [|done].
  apply bind_ok_inv in Hrun as ([] & wa & Hup & Hrun).
  apply bind_ok_inv in Hrun as ([] & wb & Hgen & Hex).
  destruct (upload_ok_settles k f w wa Hup) as (b & Hconv & Hb & Hh).
  exists b. split; [done|].
  assert (Hwb : (stored_bytes k (session_state wb), stored_md5 k (session_state wb)) =
                (stored_bytes k (session_state wa), stored_md5 k (session_state wa))).
  { pose proof (keeps_when _ (generate_clicked ui) _ (generate_keeps_upload k) wa)
      as Hk. unfold after in Hk. by rewrite Hgen in Hk. }
  assert (Hw1 : session_state w1 = session_state wb).
  { pose proof (expander_keeps_session env k (save_clicked ui) wb) as Hk.
    unfold after in Hk. by rewrite Hex in Hk. }
  rewrite Hw1. injection Hwb as -> ->. done.
Qed.

(** X8. What the Generate button does, outcome by outcome.  Without
    uploaded bytes it raises [TypeError] and sends nothing.  It asks
    for the transcription of the stored bytes; when that fails, no
    summarisation is asked for.  It asks for the summary of the
    prompt followed by the transcript; when that fails too the world
    only has the two requests more.  Otherwise the answer replaces the
    summary of that kind, and the stored bytes, the fingerprint, the
    other kind and the store are as before. *)
Theorem generate_outcomes (k : MediaKind) (w : World) :
  match stored_bytes k (session_state w) with
  | EmptyStr => generate env k w = (Raise TypeError, w)
  | Mp3 b =>
      let r1 := TranscriptionsCreate TRANSCRIPTION_MODEL "audio.mp3" b
                  "verbose_json" in
      match openai_transcription env (requests w) b with
      | None => generate env k w = (Raise TranscriptionError, logged r1 w)
      | Some t =>
          let content := (prompt ++ ": " ++ t)%string in
          let r2 := ChatCompletionsCreate SUMMARY_MODEL 0 "user" content in
          match openai_chat env (requests w ++ [r1]) content with
          | None =>
              generate env k w =
                (Raise SummarizationError, logged r2 (logged r1 w))
          | Some r =>
              ∃ w', generate env k w = (Ok tt, w') ∧
                    stored_summary k (session_state w') = r ∧
                    stored_bytes k (session_state w') = Mp3 b ∧
                    stored_md5 k (session_state w') =
                      stored_md5 k (session_state w) ∧
                    kind_state (other k) w' = kind_state (other k) w ∧
                    qdrant w' = qdrant w ∧
                    requests w' = requests w ++ [r1; r2]
          end
      end
  end.
Proof.
  destruct k; simpl; unfold audio_generate, video_generate, transcribe_audio,
    summary, BytesIO; run.
  - destruct (audio_bytes (session_state w)) as [|b] eqn:Hb; simpl; [done|].
    destruct (openai_transcription env (requests w) b) as [t|]; simpl; [|done].
    destruct (openai_chat env _ _) as [r|]; simpl; [|done].
    eexists. split; [reflexivity|]. simpl. rewrite <- (assoc_L (++)). done.
  - destruct (video_bytes (session_state w)) as [|b] eqn:Hb; simpl; [done|].
    destruct (openai_transcription env (requests w) b) as [t|]; simpl; [|done].
    destruct (openai_chat env _ _) as [r|]; simpl; [|done].
    eexists. split; [reflexivity|]. simpl. rewrite <- (assoc_L (++)). done.
Qed.

(** X9. A save that fails stores nothing.  When [add_note_to_qdrant]
    raises, the store and the session are as before, and it stopped at
    the first call that failed: at the count (no embedding was asked
    for), at the embedding (no upsert was sent), or at the upsert. *)
Theorem failed_save_stores_nothing (t : string) (w w' : World) (e : Exception) :
  add_note_to_qdrant env t w = (Raise e, w') →
  qdrant w' = qdrant w ∧
  session_state w' = session_state w ∧
  let count_request := Count COLLECTION_NAME true in
  let embed_request := EmbeddingsCreate EMBEDDING_MODEL [t] EMBEDDING_DIM in
  ((e = StoreError ∧ requests w' = requests w ++ [count_request]) ∨
   (e = EmbeddingError ∧ requests w' = requests w ++ [count_request; embed_request]) ∨
   (e = StoreError ∧
    ∃ id v, requests w' =
              requests w ++ [count_request; embed_request;
                             Upsert COLLECTION_NAME [summary_point id v t]])).
Proof.
  unfold add_note_to_qdrant, client_count, client_upsert, get_embedding,
    qdrant_request. run.
  destruct (qdrant_reachable env (requests w)); simpl;
    [|intros [= <- <-]; simpl; auto].
  destruct (qdrant w !! COLLECTION_NAME) as [c|] eqn:Hc; simpl;
    [|intros [= <- <-]; simpl; auto].
  destruct (openai_embedding env _ t EMBEDDING_DIM) as [v|]; simpl.
  2:{ intros [= <- <-]. simpl. rewrite <- (assoc_L (++)).
      split; [done|]. split; [done|]. right. left. done. }
  assert (Hlog : ∀ r : Request,
    ((requests w ++ [Count COLLECTION_NAME true]) ++
       [EmbeddingsCreate EMBEDDING_MODEL [t] EMBEDDING_DIM]) ++ [r] =
    requests w ++ [Count COLLECTION_NAME true;
                   EmbeddingsCreate EMBEDDING_MODEL [t] EMBEDDING_DIM; r])
    by (intros r; by rewrite <- !(assoc_L (++))).
  destruct (qdrant_reachable env _); simpl.
  2:{ intros [= <- <-]. simpl. rewrite Hlog. split; [done|]. split; [done|].
      right. right. split; [done|]. by eexists _, _. }
  rewrite Hc. unfold store_point. simpl. case_decide; simpl; [discriminate|].
  intros [= <- <-]. simpl. rewrite Hlog. split; [done|]. split; [done|].
  right. right. split; [done|]. by eexists _, _.
Qed.

(** X10. The id of a new note is the count plus one, free or not.
    When a point is already stored under that id, a save that goes
    through replaces it: the point that was there is gone, the count
    does not grow, and the other points are untouched. *)
Theorem save_on_taken_id_overwrites
    (t : string) (w : World) (c : Collection) (v : vector) (old : StoredPoint) :
  let n := size (points c) in
  let count_request := Count COLLECTION_NAME true in
  let embed_request := EmbeddingsCreate EMBEDDING_MODEL [t] EMBEDDING_DIM in
  qdrant w !! COLLECTION_NAME = Some c →
  points c !! (n + 1) = Some old →
  qdrant_reachable env (requests w) = true →
  openai_embedding env (requests w ++ [count_request]) t EMBEDDING_DIM = Some v →
  qdrant_reachable env (requests w ++ [count_request; embed_request]) = true →
  length v = size_ (vectors_config c) →
  ∃ w' c',
    add_note_to_qdrant env t w = (Ok tt, w') ∧
    qdrant w' !! COLLECTION_NAME = Some c' ∧
    size (points c') = n ∧
    points c' !! (n + 1) = Some (summary_stored v t) ∧
    (∀ i, i ≠ n + 1 → points c' !! i = points c !! i).
Proof.
  intros n r1 r2 Hc Hold Hup1 Hemb Hup2 Hlen.
  eexists _, (with_point c (n + 1) v t).
  split; [by apply (add_note_run env t w c v)|]. simpl.
  split; [apply lookup_insert_eq|].
  split; [by rewrite map_size_insert_Some by eauto|].
  split; [apply lookup_insert_eq|].
  intros i Hi. by rewrite lookup_insert_ne.
Qed.

(** X11. The listing reads the key "summary" of every payload of the
    page it gets.  On a store that answers and holds the collection,
    it raises [KeyError] on "summary", and returns no note at all,
    exactly when one of the first 10 points has no summary in its
    payload. *)
Theorem listing_raises_on_missing_summary
    (q : option string) (w : World) (c : Collection) :
  falsy q = true →
  qdrant_reachable env (requests w) = true →
  qdrant w !! COLLECTION_NAME = Some c →
  (list_notes_from_qdrant env q w).1 = Raise (KeyError "summary") ↔
  ∃ kv, kv ∈ take 10 (map_to_list (points c)) ∧
        stored_payload kv.2 !! "summary" = None.
Proof.
  intros Hq Hup Hc.
  assert (Hsteps : list_notes_from_qdrant env q w =
                   for_each note_of_record (scroll_page c 10)
                     (logged (Scroll COLLECTION_NAME 10) w)).
  { rewrite (list_notes_falsy env q Hq).
    unfold client_scroll, qdrant_request. run. rewrite Hup. simpl.
    by rewrite Hc. }
  destruct (for_each_reads note_of_record view_record (scroll_page c 10)
              (logged (Scroll COLLECTION_NAME 10) w) note_of_record_reads)
    as (res & Hrun & Hres).
  rewrite Hsteps, Hrun. simpl. unfold scroll_page in Hres. rewrite <- fmap_take in Hres.
  split.
  - intros ->. destruct Hres as (r & Hin & Hr).
    apply list_elem_of_fmap in Hin as (kv & -> & Hin). exists kv. split; [done|].
    unfold view_record in Hr. simpl in Hr.
    by destruct (stored_payload kv.2 !! "summary").
  - intros (kv & Hin & Hnone). destruct res as [notes|e].
    + exfalso. apply Forall2_fmap_l in Hres.
      apply list_elem_of_lookup in Hin as [i Hi].
      destruct (Forall2_lookup_l _ _ _ _ _ Hres Hi) as (n & _ & Hn).
      unfold view_record in Hn. simpl in Hn. rewrite Hnone in Hn. discriminate.
    + destruct Hres as (r & _ & Hr). unfold view_record in Hr.
      destruct (record_payload r !! "summary"); congruence.
Qed.

End MoreActions.

(** ** Further properties: search, and what is sent and kept *)

Section MoreInvariants.

Context (env : Services).

Lemma keeps_qdrant_list_notes q : keeps qdrant (list_notes_from_qdrant env q).
Proof.
  unfold list_notes_from_qdrant, client_scroll, client_search, get_embedding,
    qdrant_request.
  frame.
Qed.

Lemma keeps_page_list_notes q : keeps page (list_notes_from_qdrant env q).
Proof.
  unfold list_notes_from_qdrant, client_scroll, client_search, get_embedding,
    qdrant_request.
  frame.
Qed.

(** X12. Listing and searching only read: whatever the query and the
    answers of the services, returning or raising,
    [list_notes_from_qdrant] and the search tab leave the store and
    the session as they are. *)
Theorem search_is_read_only (q : option string) (query : string) (b : bool) (w : World) :
  qdrant (after (list_notes_from_qdrant env q) w) = qdrant w ∧
  session_state (after (list_notes_from_qdrant env q) w) = session_state w ∧
  qdrant (after (search_tab env query b) w) = qdrant w ∧
  session_state (after (search_tab env query b) w) = session_state w.
Proof.
  split; [apply keeps_qdrant_list_notes|].
  split; [apply (keeps_list_notes_from_qdrant env (λ s, s))|].
  split; [apply keeps_qdrant_search_tab|].
  apply (keeps_search_tab env (λ s, s)).
Qed.

Lemma show_note_run n w :
  ∃ w', show_note n w = (Ok tt, w') ∧ page w' = page w ++ shown n.
Proof.
  unfold show_note, shown. run. destruct (score n) as [sc|]; [|by eauto].
  destruct (Qeq_bool sc 0); simpl; eexists; (split; [reflexivity|]); simpl;
    [done | by rewrite <- (assoc_L (++))].
Qed.

Lemma for_each_show_note_run notes w :
  ∃ us w', for_each show_note notes w = (Ok us, w') ∧
           page w' = page w ++ concat (shown <$> notes).
Proof.
  revert w. induction notes as [|n notes IH]; intros w; simpl.
  - exists [], w. split; [done|]. by rewrite app_nil_r.
  - destruct (show_note_run n w) as (w1 & Hn & Hp1).
    destruct (IH w1) as (us & w2 & Hrest & Hp2).
    exists (tt :: us), w2. unfold mbind, App_bind, bind. rewrite Hn, Hrest.
    split; [done|]. by rewrite Hp2, Hp1, <- (assoc_L (++)).
Qed.

(** X13. What the Search button shows.  When the notes are there, the
    button returns and puts on the page, note by note and in order,
    the text of the note and, when the note has a score other than 0,
    the score rounded to two decimals.  With an empty query box the
    notes are the listed ones, which have no score: only the texts are
    shown. *)
Theorem search_shows_texts_and_scores
    (query : string) (w w1 : World) (notes : list NoteView) :
  list_notes_from_qdrant env (Some query) w = (Ok notes, w1) →
  ∃ w',
    search_tab env query true w = (Ok tt, w') ∧
    page w' = page w ++ concat (shown <$> notes) ∧
    (query = "" → page w' = page w ++ (StWrite ∘ text <$> notes)).
Proof.
  intros Hrun.
  destruct (for_each_show_note_run notes w1) as (us & w2 & Hshow & Hpage).
  assert (Hp1 : page w1 = page w).
  { pose proof (keeps_page_list_notes (Some query) w) as Hk.
    unfold after in Hk. by rewrite Hrun in Hk. }
  exists w2. split.
  { unfold search_tab, when. rewrite (bind_ok _ _ _ _ _ Hrun).
    by rewrite (bind_ok _ _ _ _ _ Hshow). }
  rewrite Hpage, Hp1. split; [done|]. intros ->. f_equal.
  destruct (listing_outcome env (Some "") w eq_refl) as (res & Hrun' & Hres).
  rewrite Hrun in Hrun'. injection Hrun' as <- _.
  destruct Hres as (c & _ & Hall).
  assert (Hnone : Forall (λ n, score n = None) notes)
    by (by eapply lists_point_bounds).
  clear -Hnone. induction Hnone as [|n notes Hn _ IH]; [done|].
  rewrite !fmap_cons. cbn [concat]. rewrite IH. unfold shown. by rewrite Hn.
Qed.

(** *** The shape of every request *)

Let well_formed (r : Request) : Prop := openai_request_ok r ∧ qdrant_request_ok r.

Lemma emits_wf_transcribe_audio b : emits well_formed (transcribe_audio env b).
Proof. unfold transcribe_audio, BytesIO. emit. by split. Qed.

Lemma emits_wf_summary t : emits well_formed (summary env t).
Proof.
  unfold summary. emit. split; [|done]. simpl. repeat split; try done. by exists t.
Qed.

Lemma emits_wf_get_embedding t : t ≠ "" → emits well_formed (get_embedding env t).
Proof.
  intros Ht. unfold get_embedding. emit. split; [|done]. simpl.
  repeat split; try done. by exists t.
Qed.

Lemma emits_wf_check : emits well_formed (check_if_collection_exists env).
Proof.
  unfold check_if_collection_exists, client_collection_exists,
    client_create_collection, qdrant_request.
  emit; by split.
Qed.

Lemma emits_wf_add_note t : t ≠ "" → emits well_formed (add_note_to_qdrant env t).
Proof.
  intros Ht. pose proof (emits_wf_get_embedding t Ht).
  unfold add_note_to_qdrant, client_count, client_upsert, qdrant_request.
  emit; (split; [done|]); simpl; [done|].
  split; [done|]. eexists _, _, t. split; [reflexivity|]. split; [lia | done].
Qed.

Lemma emits_wf_list_notes q : emits well_formed (list_notes_from_qdrant env q).
Proof.
  unfold list_notes_from_qdrant. destruct (falsy q) eqn:Hq.
  - unfold client_scroll, qdrant_request, getitem. emit. by split.
  - destruct q as [t|]; [|discriminate]. simpl in *.
    apply bool_decide_eq_false in Hq.
    pose proof (emits_wf_get_embedding t Hq).
    unfold client_search, qdrant_request, getitem. emit. by split.
Qed.

Lemma expander_at k b w :
  expander env k b w =
    when (bool_decide (stored_summary k (session_state w) ≠ ""))
      (render (StTextArea
                 (match k with Audio => "Audio Summary" | Video => "Video Summary" end)
                 (stored_summary k (session_state w)));;
       when b
         (add_note_to_qdrant env (stored_summary k (session_state w));;
          render (StSuccess
                    (match k with
                     | Audio => "Audio Summary Has Been Saved"
                     | Video => "Video Summary Has Been Saved"
                     end)))) w.
Proof.
  destruct k; simpl; unfold audio_expander, video_expander, audio_save, video_save;
    unfold mbind at 1, App_bind, bind, get_session, when;
    case_bool_decide; destruct b; reflexivity.
Qed.

Lemma emits_wf_expander k b : emits well_formed (expander env k b).
Proof.
  intros w. unfold after. rewrite expander_at. unfold when at 1.
  case_bool_decide as Hs; [|exists []; split; [by rewrite app_nil_r | done]].
  pose proof (emits_wf_add_note _ Hs) as Hadd.
  match goal with |- context [(?m w).2] => assert (emits well_formed m) as Hm end.
  { emit. }
  apply Hm.
Qed.

Lemma emits_wf_tab k ui : emits well_formed (tab env k ui).
Proof.
  rewrite tab_unfold. destruct (uploaded_user_file ui) as [f|];
    [|by apply emits_quiet].
  apply emits_bind; [apply emits_quiet, keeps_requests_upload | intros _].
  apply emits_bind; [|intros _; apply emits_wf_expander].
  apply emits_when. pose proof emits_wf_transcribe_audio. pose proof emits_wf_summary.
  destruct k; simpl; unfold audio_generate, video_generate; emit.
Qed.

Lemma emits_wf_app ui : emits well_formed (app env ui).
Proof.
  pose proof emits_wf_check. pose proof emits_wf_list_notes.
  pose proof (emits_wf_tab Audio) as Ha. pose proof (emits_wf_tab Video) as Hv.
  simpl in Ha, Hv.
  unfold app, main, search_tab, show_note. emit.
Qed.

(** X14. Every request a run of the script sends to OpenAI has the
    fixed shape of the source: transcriptions go to whisper-1 as
    "audio.mp3" with format verbose_json; chat completions go to
    gpt-4o at temperature 0 as one user message made of the prompt
    followed by ": " and a text; embeddings go to
    text-embedding-3-large with 3072 dimensions, for a single input,
    and never for the empty string. *)
Theorem openai_requests_are_well_formed (ui : Widgets) (w : World) :
  ∃ new,
    requests (after (app env ui) w) = requests w ++ new ∧
    Forall openai_request_ok new.
Proof.
  destruct (emits_wf_app ui w) as (new & Hreq & Hall). exists new.
  split; [done|]. eapply Forall_impl; [exact Hall|]. by intros r [? ?].
Qed.

(** X15. Every request a run of the script sends to Qdrant names the
    collection "SUMMARIES"; a creation asks for 3072 dimensions and
    cosine; a count is exact; a scroll or a search has limit 10; and
    an upsert carries one point: its id is at least 1 and its payload
    is a non-empty summary, as the Save button is only there for a
    non-empty summary. *)
Theorem qdrant_requests_are_well_formed (ui : Widgets) (w : World) :
  ∃ new,
    requests (after (app env ui) w) = requests w ++ new ∧
    Forall qdrant_request_ok new.
Proof.
  destruct (emits_wf_app ui w) as (new & Hreq & Hall). exists new.
  split; [done|]. eapply Forall_impl; [exact Hall|]. by intros r [? ?].
Qed.

End MoreInvariants.

(** ** Further properties: the collection along a run *)

Section MoreStore.

Context (env : Services).

Lemma check_ok_present w w1 :
  check_if_collection_exists env w = (Ok tt, w1) →
  is_Some (qdrant w1 !! COLLECTION_NAME).
Proof.
  unfold check_if_collection_exists, client_collection_exists,
    client_create_collection, qdrant_request. run.
  destruct (qdrant_reachable env (requests w)); simpl; [|discriminate].
  destruct (qdrant w !! COLLECTION_NAME) as [c|] eqn:Hc.
  - rewrite bool_decide_true by eauto. simpl. intros [= <-]. simpl. eauto.
  - rewrite bool_decide_false by (intros [? ?]; discriminate). simpl.
    destruct (qdrant_reachable env _); simpl; [|discriminate]. rewrite Hc.
    simpl. intros [= <-]. simpl. rewrite lookup_insert_eq. eauto.
Qed.




(** A property of the store that saving keeps is kept by a media tab. *)
Lemma tab_maintains_store (J : gmap string Collection → Prop) k ui :
  (∀ t, maintains (λ w, J (qdrant w)) (add_note_to_qdrant env t)) →
  maintains (λ w, J (qdrant w)) (tab env k ui).
Proof.
  intros Hadd.
  assert (Hquiet : ∀ A (m : App A), keeps qdrant m → maintains (λ w, J (qdrant w)) m)
    by (intros A m; apply (maintains_keeps qdrant J)).
  rewrite tab_unfold. destruct (uploaded_user_file ui) as [f|]; [|by intros w].
  apply maintains_bind; [apply Hquiet, keeps_qdrant_upload | intros _].
  apply maintains_bind.
  { apply Hquiet, keeps_when, keeps_qdrant_generate. }
  intros _ w Hw. unfold after. rewrite expander_at. unfold when at 1.
  destruct (bool_decide _); [|done].
  match goal with |- J (qdrant (?m w).2) =>
    assert (maintains (λ w, J (qdrant w)) m) as Hm
  end.
  { apply maintains_bind; [apply Hquiet; by intros w0 | intros _].
    destruct (save_clicked ui); simpl; [|by intros w0].
    apply maintains_bind; [apply Hadd | intros _]. apply Hquiet. by intros w0. }
  by apply Hm.
Qed.

Lemma add_note_keeps_collection_present t :
  maintains (λ w, is_Some (qdrant w !! COLLECTION_NAME)) (add_note_to_qdrant env t).
Proof.
  intros w Hw. unfold after, add_note_to_qdrant, client_count, client_upsert,
    get_embedding, qdrant_request. run.
  destruct (qdrant_reachable env (requests w)); simpl; [|done].
  destruct (qdrant w !! COLLECTION_NAME) as [c|] eqn:Hc; simpl; [|done].
  destruct (openai_embedding env _ t EMBEDDING_DIM) as [v|]; simpl; [|done].
  destruct (qdrant_reachable env _); simpl; [|done]. rewrite Hc.
  destruct (store_point _ _); simpl; [|done]. rewrite lookup_insert_eq. eauto.
Qed.

(** X17. The check of the collection comes first in every run (line
    211), and nothing in the script deletes a collection: after any
    run that returned, on a session that has or gets an API key, the
    collection exists. *)
Theorem returned_run_has_collection (ui : Widgets) (w w' : World) :
  api_key (session_state w) ≠ "" ∨ api_key_input ui ≠ "" →
  app env ui w = (Ok tt, w') →
  is_Some (qdrant w' !! COLLECTION_NAME).
Proof.
  intros Hkey Hrun.
  assert (∃ w0, main env ui w0 = (Ok tt, w')) as (w0 & Hmain).
  { destruct (decide (api_key (session_state w) = "")) as [Hk|Hk].
    - rewrite (app_without_key env ui w Hk) in Hrun.
      rewrite bool_decide_false in Hrun by (destruct Hkey; done). eauto.
    - rewrite (app_with_key env ui w Hk) in Hrun. eauto. }
  unfold main in Hmain.
  apply bind_ok_inv in Hmain as ([] & w1 & _ & Hmain).
  apply bind_ok_inv in Hmain as ([] & w2 & _ & Hmain).
  apply bind_ok_inv in Hmain as ([] & w3 & Hcheck & Hrest).
  apply check_ok_present in Hcheck.
  set (I := λ w : World, is_Some (qdrant w !! COLLECTION_NAME)).
  assert (Htab : ∀ k u, maintains I (tab env k u)).
  { intros k u. apply (tab_maintains_store (λ q, is_Some (q !! COLLECTION_NAME))).
    apply add_note_keeps_collection_present. }
  match type of Hrest with ?m w3 = _ => assert (maintains I m) as Hm end.
  { apply maintains_bind; [apply (Htab Audio) | intros _].
    apply maintains_bind; [apply (Htab Video) | intros _].
    apply (maintains_keeps qdrant (λ q, is_Some (q !! COLLECTION_NAME))).
    apply keeps_qdrant_search_tab. }
  specialize (Hm w3 Hcheck). unfold after in Hm. by rewrite Hrest in Hm.
Qed.

Lemma store_point_other_dimension c p :
  length (point_vector p) ≠ size_ (vectors_config c) → store_point c p = None.
Proof. intros Hne. unfold store_point. by rewrite decide_False. Qed.

(** X18. The dimension of an existing collection is never checked, so
    a collection of the store that has another dimension than
    [EMBEDDING_DIM] is found at the first save or search: with an
    embedding service that returns vectors of the dimension it is
    asked for, every save and every search with a non-empty query
    raises, and the store is left as it is. *)
Theorem other_dimension_fails_save_and_search
    (t : string) (w : World) (c : Collection) :
  qdrant w !! COLLECTION_NAME = Some c →
  size_ (vectors_config c) ≠ EMBEDDING_DIM →
  (∀ h s d v, openai_embedding env h s d = Some v → length v = d) →
  t ≠ "" →
  (∃ e w', add_note_to_qdrant env t w = (Raise e, w') ∧ qdrant w' = qdrant w) ∧
  (∃ e w', list_notes_from_qdrant env (Some t) w = (Raise e, w') ∧
           qdrant w' = qdrant w).
Proof.
  intros Hc Hdim Hhonest Ht. split.
  - unfold add_note_to_qdrant, client_count, client_upsert, get_embedding,
      qdrant_request. run.
    destruct (qdrant_reachable env (requests w)); simpl; [|by eauto].
    rewrite Hc. simpl.
    destruct (openai_embedding env _ t EMBEDDING_DIM) as [v|] eqn:Hv; simpl;
      [|by eauto].
    destruct (qdrant_reachable env _); simpl; [|by eauto]. rewrite Hc.
    rewrite store_point_other_dimension; [by eauto|]. simpl.
    apply Hhonest in Hv. congruence.
  - unfold list_notes_from_qdrant. simpl. rewrite bool_decide_false by done.
    unfold client_search, get_embedding, qdrant_request. run.
    destruct (openai_embedding env _ t EMBEDDING_DIM) as [v|] eqn:Hv; simpl;
      [|by eauto].
    destruct (qdrant_reachable env _); simpl; [|by eauto]. rewrite Hc.
    rewrite decide_False; [by eauto|]. apply Hhonest in Hv. congruence.
Qed.

(** X19. The collection stays one the program made.  When the store
    has no collection under the program's name, or one with the
    program's dimensions and distance, ids 1..count and a summary in
    every payload, the same holds after any run of the script,
    whatever the widgets and the answers of the services, returned or
    raised. *)
Theorem runs_keep_the_collection_program_made (ui : Widgets) (w : World) :
  program_store w → program_store (after (app env ui) w).
Proof. apply program_store_app. Qed.

Lemma upload_summary_cases k f w wa :
  upload env k f w = (Ok tt, wa) →
  stored_summary k (session_state wa) = stored_summary k (session_state w) ∨
  stored_summary k (session_state wa) = "".
Proof.
  destruct k; simpl; unfold audio_upload, video_upload, convert_user_file, md5;
    destruct (pydub_mp3 env f); run; try discriminate;
    case_bool_decide; simpl; intros [= <-]; simpl; auto.
Qed.

(** X20. A summary only comes from the Generate button.  After a run
    of a media tab in which Generate was not pressed, with any file
    and with or without Save, returned or raised, the summary of that
    kind is the one before the run or is empty. *)
Theorem summary_only_from_generate (k : MediaKind) (ui : TabWidgets) (w : World) :
  generate_clicked ui = false →
  stored_summary k (session_state (after (tab env k ui) w)) =
    stored_summary k (session_state w) ∨
  stored_summary k (session_state (after (tab env k ui) w)) = "".
Proof.
  intros Hgen. rewrite tab_unfold, Hgen.
  destruct (uploaded_user_file ui) as [f|]; [|by left].
  rewrite after_bind. destruct (upload env k f w) as [[[]|e] wa] eqn:Hup.
  - rewrite after_bind. simpl.
    rewrite (expander_keeps_session env k (save_clicked ui) wa).
    by eapply upload_summary_cases.
  - left. f_equal. by eapply upload_raise_keeps_session.
Qed.

End MoreStore.

(** ** The further properties at work on concrete runs *)

Lemma demo_honours_dimensions :
  ∀ h s d v, openai_embedding demo h s d = Some v → length v = d.
Proof. intros h s d v [= <-]. apply length_replicate. Defined.

(** The secret URL wins, the key comes from [.env]. *)
Lemma qdrant_client_witness :
  new_qdrant_client (load_env dotenv_demo secrets_demo) =
    Ok {| client_url := "https://cloud.example"; client_api_key := "local-key" |}.
Proof.
  destruct (qdrant_client_reads_secrets_first dotenv_demo secrets_demo)
    as (Hbuilt & _).
  apply Hbuilt. split; reflexivity.
Defined.

(** No key, no input: the run stops at the prompt. *)
Lemma no_request_without_api_key_witness :
  ∃ w', app demo upload_A_run keyless_world = (Ok tt, w') ∧
        requests w' = requests keyless_world.
Proof.
  destruct (no_request_without_api_key demo upload_A_run keyless_world)
    as (Hstop & _).
  destruct Hstop as (w' & Hrun & Hreq & _); [reflexivity | reflexivity |].
  exists w'. auto.
Defined.

(** A file that cannot be decoded. *)
Lemma upload_fails_witness :
  ∃ w', upload undecodable Audio file_A summarised_world =
          (Raise UnsupportedMediaError, w').
Proof.
  destruct (upload_fails_only_on_conversion undecodable Audio file_A summarised_world)
    as (Hfails & _).
  apply Hfails. reflexivity.
Defined.

(** Putting file A in on a fresh store: the collection is checked and
    created, nothing else is sent. *)
Lemma run_without_buttons_witness :
  ∃ new,
    requests (after (app demo upload_A_run) fresh_world) =
      requests fresh_world ++ new ∧
    length new ≤ 2.
Proof.
  destruct (run_without_buttons_only_checks_collection demo upload_A_run fresh_world)
    as (new & Hreq & Hnew).
  - repeat split.
  - exists new. split; [exact Hreq|].
    destruct Hnew as [-> | [-> | ->]]; simpl; lia.
Defined.

(** Generate, then a rerun: "S1" is still there. *)
Lemma rerun_witness :
  ∃ w2,
    tab demo Audio (released (press_generate file_A)) after_generate = (Ok tt, w2) ∧
    session_state w2 = session_state after_generate.
Proof.
  apply (rerun_keeps_session demo Audio (press_generate file_A)
           (run_tabs demo [(Audio, upload_only file_A)] ready_world)).
  vm_compute. reflexivity.
Defined.

(** Saving with the store down. *)
Lemma failed_save_witness :
  qdrant (after (add_note_to_qdrant offline "S1") summarised_world) =
    qdrant summarised_world.
Proof.
  destruct (failed_save_stores_nothing offline "S1" summarised_world
              (after (add_note_to_qdrant offline "S1") summarised_world)
              StoreError eq_refl) as (Hq & _).
  exact Hq.
Defined.

(** Saving "S1" into the collection whose one point has id 2. *)
Lemma save_on_taken_id_witness :
  ∃ w' c',
    add_note_to_qdrant demo "S1" foreign_world = (Ok tt, w') ∧
    qdrant w' !! COLLECTION_NAME = Some c' ∧
    size (points c') = 1.
Proof.
  destruct (save_on_taken_id_overwrites demo "S1" foreign_world foreign_collection
              (replicate EMBEDDING_DIM (2 # 1))
              (summary_stored (replicate EMBEDDING_DIM (1 # 1)) "old"))
    as (w' & c' & Hrun & Hc' & Hsize & _).
  - reflexivity.
  - reflexivity.
  - reflexivity.
  - reflexivity.
  - reflexivity.
  - apply length_replicate.
  - exists w', c'. auto.
Defined.

(** Listing a collection whose point has no summary. *)
Lemma listing_raises_witness :
  (list_notes_from_qdrant demo None bare_world).1 = Raise (KeyError "summary").
Proof.
  apply (listing_raises_on_missing_summary demo None bare_world bare_collection).
  - reflexivity.
  - reflexivity.
  - reflexivity.
  - exists (1, bare_point). split; [|reflexivity].
    simpl. rewrite map_to_list_singleton. simpl. left.
Defined.

(** Searching "S1": its text and its score are shown. *)
Lemma search_shows_witness :
  ∃ w',
    search_tab demo "S1" true saved_world = (Ok tt, w') ∧
    page w' =
      page saved_world ++
      concat (shown <$> [ {| text := "S1"; score := Some (4 # 1) |} ]).
Proof.
  destruct (search_shows_texts_and_scores demo "S1" saved_world
              (after (list_notes_from_qdrant demo (Some "S1")) saved_world)
              [ {| text := "S1"; score := Some (4 # 1) |} ])
    as (w' & Hrun & Hpage & _).
  - vm_compute. reflexivity.
  - exists w'. auto.
Defined.

(** After the first run the collection is there. *)
Lemma returned_run_witness :
  is_Some (qdrant (after (app demo upload_A_run) fresh_world) !! COLLECTION_NAME).
Proof.
  apply (returned_run_has_collection demo upload_A_run fresh_world).
  - left. discriminate.
  - reflexivity.
Defined.


(** A collection of 4 dimensions: saving and searching "S1" raise. *)
Lemma other_dimension_witness :
  ∃ e w', add_note_to_qdrant demo "S1" small_world = (Raise e, w') ∧
          qdrant w' = qdrant small_world.
Proof.
  destruct (other_dimension_fails_save_and_search demo "S1" small_world
              small_collection) as (Hsave & _).
  - reflexivity.
  - unfold EMBEDDING_DIM. simpl. lia.
  - exact demo_honours_dimensions.
  - discriminate.
  - exact Hsave.
Defined.

(** The first run on an empty store. *)
Lemma program_store_witness :
  program_store (after (app demo upload_A_run) fresh_world).
Proof.
  apply (runs_keep_the_collection_program_made demo upload_A_run fresh_world).
  by apply program_store_empty.
Defined.

(** Save without Generate keeps "S1". *)
Lemma summary_only_from_generate_witness :
  stored_summary Audio
    (session_state (after (tab demo Audio (press_save file_A)) summarised_world)) =
    stored_summary Audio (session_state summarised_world) ∨
  stored_summary Audio
    (session_state (after (tab demo Audio (press_save file_A)) summarised_world)) = "".
Proof.
  apply (summary_only_from_generate demo Audio (press_save file_A) summarised_world).
  reflexivity.
Defined.

(** File A put in while the store is down. *)
Lemma app_raise_witness :
  kind_state Audio (after (app offline upload_A_run) fresh_world) =
    kind_state Audio fresh_world ∧
  kind_state Video (after (app offline upload_A_run) fresh_world) =
    kind_state Video fresh_world.
Proof.
  assert (Hall : ∀ k, kind_state k (after (app offline upload_A_run) fresh_world) =
                      kind_state k fresh_world).
  { apply (app_raise_keeps_media offline upload_A_run fresh_world StoreError).
    - left. split; [by left|]. split; [|reflexivity]. split; [exact I | by split].
    - reflexivity. }
  split; apply Hall.
Defined.

(** File A put in: the video state stays. *)
Lemma app_keeps_quiet_kind_witness :
  kind_state Video (after (app demo upload_A_run) fresh_world) =
    kind_state Video fresh_world.
Proof.
  apply (app_keeps_quiet_kind demo Video upload_A_run fresh_world).
  split; [exact I | by split].
Defined.
